(** * The audio session manager and the chat hook

    A shallow embedding of [src/services/audioService.ts] and of
    [src/hooks/useAudioChat.ts].

    The session manager is a class with one private field, [session], and
    methods that mutate it and drive browser objects (media tracks, a peer
    connection, a data channel, an audio element).  The embedding keeps
    that shape: a [World] holds the session record together with the part
    of the browser the methods act on, and every method is a computation
    in a state-and-exception monad over it.  A JavaScript [throw] is the
    [Threw] outcome; state changes made before a [throw] persist, as they
    do in JavaScript.

    What the platform decides (whether the microphone can be captured,
    what the signalling endpoint answers, ...) is an explicit input of the
    method that asks for it.  An [async] method is run to completion as one
    step: the program has a single session and starts no two negotiations
    in parallel. *)

From stdpp Require Import gmap strings list.

Open Scope string_scope.
Open Scope list_scope.
Open Scope nat_scope.

(** ** JavaScript values *)

(** The values [JSON.parse] produces.  An object is the list of its own
    properties, in insertion order; numbers are only carried around by this
    program, never computed on. *)
#[warnings="-register-all"]
Inductive Json : Type :=
| JNull
| JBool (b : bool)
| JNum (n : Z)
| JStr (s : string)
| JArr (items : list Json)
| JObj (fields : list (string * Json)).

(** A JavaScript value that may be [undefined]. *)
Abbreviation JsValue := (option Json).
Abbreviation undefined := (@None Json).

(** What a [throw] carries: an [Error] object (anything for which
    [instanceof Error] holds) with its [message], or some other value. *)
Inductive Thrown : Type :=
| JsError (message : string)
| NotAnError (description : string).

(** [error instanceof Error ? error.message : fallback]. *)
Definition messageOr (fallback : string) (error : Thrown) : string :=
  match error with
  | JsError message => message
  | NotAnError _ => fallback
  end.

Inductive Outcome (A : Type) : Type :=
| Returned (a : A)
| Threw (e : Thrown).
Arguments Returned {A} a.
Arguments Threw {A} e.


Fixpoint assoc (k : string) (fields : list (string * Json)) : JsValue :=
  match fields with
  | [] => undefined
  | (k', v) :: rest => if String.eqb k k' then Some v else assoc k rest
  end.

(** Property read [data.k] for the three names the program reads ([type],
    [text], [error]); none of them is on a prototype, so only objects can
    have them.  Reading a property of [null] throws a [TypeError]. *)
Definition getProp (data : Json) (k : string) : Outcome JsValue :=
  match data with
  | JNull => Threw (JsError "Cannot read properties of null")
  | JObj fields => Returned (assoc k fields)
  | _ => Returned undefined
  end.

(** [v === 'lit'] for a string literal. *)
Definition strictEqStr (v : JsValue) (lit : string) : bool :=
  match v with
  | Some (JStr s) => String.eqb s lit
  | _ => false
  end.

(** ** The session record and the browser *)

(** Browser objects are named by the number they were created with. *)
Record MediaStream : Type := {
  stream_id : nat;
  stream_tracks : list nat
}.

(** [interface AudioSession]. *)
Record AudioSession : Type := {
  peerConnection : option nat;
  dataChannel : option nat;
  stream : option MediaStream;
  audioElement : option nat;
  isInitialized : bool;
  retryCount : nat;
  maxRetries : nat
}.

Inductive ChannelState : Type := ChConnecting | ChOpen | ChClosed.

Inductive ConnectionState : Type :=
| PcNew | PcConnecting | PcConnected | PcDisconnected | PcFailed | PcClosed.

Inductive ConsoleEntry : Type :=
| LogRetrying (attempt : nat)      (* `Retrying connection (attempt ${n})` *)
| LogText (msg : string)           (* console.log of a literal *)
| LogReceived (data : Json)        (* console.log('Received event:', data) *)
| ConsoleWarn (msg : string)
| ConsoleError (msg : string) (err : Thrown).

(** [new CustomEvent(name, { detail })]. *)
Record CustomEvent : Type := {
  event_name : string;
  detail : JsValue
}.

Record World : Type := {
  session : AudioSession;              (* this.session *)
  session_ref : nat;                   (* which object this.session is *)
  next_id : nat;                       (* next object to be created *)
  stoppedTracks : gset nat;            (* tracks on which stop() ran *)
  channelState : gmap nat ChannelState;        (* dataChannel.readyState *)
  connectionState : gmap nat ConnectionState;  (* pc.connectionState *)
  senders : gmap nat (list nat);       (* tracks given to pc.addTrack *)
  srcObject : gmap nat nat;            (* audioElement.srcObject, absent = null *)
  sent : list (nat * Json);            (* dataChannel.send, oldest first *)
  console : list ConsoleEntry;         (* oldest first *)
  dispatched : list CustomEvent        (* window.dispatchEvent, oldest first *)
}.

(** ** Computations *)

Definition Eff (S A : Type) : Type := S → Outcome A * S.

Definition eff_ret {S A} (a : A) : Eff S A := λ s, (Returned a, s).

Definition eff_bind {S A B} (k : A → Eff S B) (m : Eff S A) : Eff S B :=
  λ s, match m s with
       | (Returned a, s') => k a s'
       | (Threw e, s') => (Threw e, s')
       end.

#[export] Instance Eff_ret S : MRet (Eff S) := @eff_ret S.
#[export] Instance Eff_bind S : MBind (Eff S) := @eff_bind S.

Definition throw {S A} (e : Thrown) : Eff S A := λ s, (Threw e, s).

(** [try { body } catch (error) { handler(error) }]. *)
Definition try_catch {S A} (body : Eff S A) (handler : Thrown → Eff S A) : Eff S A :=
  λ s, match body s with
       | (Returned a, s') => (Returned a, s')
       | (Threw e, s') => handler e s'
       end.

Definition gets {S A} (f : S → A) : Eff S A := λ s, (Returned (f s), s).
Definition modify {S} (f : S → S) : Eff S unit := λ s, (Returned tt, f s).

(** An awaited promise or a call into the platform whose result is given. *)
Definition settle {S A} (o : Outcome A) : Eff S A := λ s, (o, s).

Definition when {S} (b : bool) (m : Eff S unit) : Eff S unit :=
  if b then m else mret tt.

Fixpoint forEach {S A} (f : A → Eff S unit) (l : list A) : Eff S unit :=
  match l with
  | [] => mret tt
  | x :: rest => f x ;; forEach f rest
  end.

Definition outcome {S A} (r : Outcome A * S) : Outcome A := r.1.
Definition after {S A} (r : Outcome A * S) : S := r.2.

(** ** Field updates *)

Definition emptySession : AudioSession :=
  {| peerConnection := None; dataChannel := None; stream := None;
     audioElement := None; isInitialized := false;
     retryCount := 0; maxRetries := 3 |}.

Definition set_peerConnection (v : option nat) (s : AudioSession) : AudioSession :=
  {| peerConnection := v; dataChannel := dataChannel s; stream := stream s;
     audioElement := audioElement s; isInitialized := isInitialized s;
     retryCount := retryCount s; maxRetries := maxRetries s |}.

Definition set_dataChannel (v : option nat) (s : AudioSession) : AudioSession :=
  {| peerConnection := peerConnection s; dataChannel := v; stream := stream s;
     audioElement := audioElement s; isInitialized := isInitialized s;
     retryCount := retryCount s; maxRetries := maxRetries s |}.

Definition set_stream (v : option MediaStream) (s : AudioSession) : AudioSession :=
  {| peerConnection := peerConnection s; dataChannel := dataChannel s; stream := v;
     audioElement := audioElement s; isInitialized := isInitialized s;
     retryCount := retryCount s; maxRetries := maxRetries s |}.

Definition set_audioElement (v : option nat) (s : AudioSession) : AudioSession :=
  {| peerConnection := peerConnection s; dataChannel := dataChannel s; stream := stream s;
     audioElement := v; isInitialized := isInitialized s;
     retryCount := retryCount s; maxRetries := maxRetries s |}.

Definition set_isInitialized (v : bool) (s : AudioSession) : AudioSession :=
  {| peerConnection := peerConnection s; dataChannel := dataChannel s; stream := stream s;
     audioElement := audioElement s; isInitialized := v;
     retryCount := retryCount s; maxRetries := maxRetries s |}.

Definition set_retryCount (v : nat) (s : AudioSession) : AudioSession :=
  {| peerConnection := peerConnection s; dataChannel := dataChannel s; stream := stream s;
     audioElement := audioElement s; isInitialized := isInitialized s;
     retryCount := v; maxRetries := maxRetries s |}.

(** [this.session.f = v]: the record [this.session] points to is changed
    in place. *)
Definition assign (f : AudioSession → AudioSession) : Eff World unit :=
  modify (λ w,
    {| session := f (session w); session_ref := session_ref w;
       next_id := next_id w; stoppedTracks := stoppedTracks w;
       channelState := channelState w; connectionState := connectionState w;
       senders := senders w; srcObject := srcObject w; sent := sent w;
       console := console w; dispatched := dispatched w |}).

(** [this.session = { ... }]: a new record is created and [this.session]
    made to point to it. *)
Definition replaceSession (s : AudioSession) : Eff World unit :=
  modify (λ w,
    {| session := s; session_ref := next_id w;
       next_id := S (next_id w); stoppedTracks := stoppedTracks w;
       channelState := channelState w; connectionState := connectionState w;
       senders := senders w; srcObject := srcObject w; sent := sent w;
       console := console w; dispatched := dispatched w |}).

(** Creation of [n] browser objects; the first of them is returned. *)
Definition create (n : nat) : Eff World nat :=
  λ w, (Returned (next_id w),
    {| session := session w; session_ref := session_ref w;
       next_id := n + next_id w; stoppedTracks := stoppedTracks w;
       channelState := channelState w; connectionState := connectionState w;
       senders := senders w; srcObject := srcObject w; sent := sent w;
       console := console w; dispatched := dispatched w |}).

(** [track.stop()]. *)
Definition track_stop (t : nat) : Eff World unit :=
  modify (λ w,
    {| session := session w; session_ref := session_ref w;
       next_id := next_id w; stoppedTracks := {[t]} ∪ stoppedTracks w;
       channelState := channelState w; connectionState := connectionState w;
       senders := senders w; srcObject := srcObject w; sent := sent w;
       console := console w; dispatched := dispatched w |}).

Definition set_channelState (d : nat) (st : ChannelState) : Eff World unit :=
  modify (λ w,
    {| session := session w; session_ref := session_ref w;
       next_id := next_id w; stoppedTracks := stoppedTracks w;
       channelState := <[d := st]> (channelState w);
       connectionState := connectionState w;
       senders := senders w; srcObject := srcObject w; sent := sent w;
       console := console w; dispatched := dispatched w |}).

Definition set_connectionState (pc : nat) (st : ConnectionState) : Eff World unit :=
  modify (λ w,
    {| session := session w; session_ref := session_ref w;
       next_id := next_id w; stoppedTracks := stoppedTracks w;
       channelState := channelState w;
       connectionState := <[pc := st]> (connectionState w);
       senders := senders w; srcObject := srcObject w; sent := sent w;
       console := console w; dispatched := dispatched w |}).

(** [pc.addTrack(track, stream)]. *)
Definition addTrack (pc t : nat) : Eff World unit :=
  modify (λ w,
    {| session := session w; session_ref := session_ref w;
       next_id := next_id w; stoppedTracks := stoppedTracks w;
       channelState := channelState w; connectionState := connectionState w;
       senders := <[pc := default [] (senders w !! pc) ++ [t]]> (senders w);
       srcObject := srcObject w; sent := sent w;
       console := console w; dispatched := dispatched w |}).

(** [audioElement.srcObject = v]. *)
Definition set_srcObject (a : nat) (v : option nat) : Eff World unit :=
  modify (λ w,
    {| session := session w; session_ref := session_ref w;
       next_id := next_id w; stoppedTracks := stoppedTracks w;
       channelState := channelState w; connectionState := connectionState w;
       senders := senders w;
       srcObject := match v with
                    | Some r => <[a := r]> (srcObject w)
                    | None => delete a (srcObject w)
                    end;
       sent := sent w; console := console w; dispatched := dispatched w |}).

(** [dataChannel.send(JSON.stringify(event))]. *)
Definition channel_send (d : nat) (event : Json) : Eff World unit :=
  modify (λ w,
    {| session := session w; session_ref := session_ref w;
       next_id := next_id w; stoppedTracks := stoppedTracks w;
       channelState := channelState w; connectionState := connectionState w;
       senders := senders w; srcObject := srcObject w;
       sent := sent w ++ [(d, event)];
       console := console w; dispatched := dispatched w |}).

Definition console_write (e : ConsoleEntry) : Eff World unit :=
  modify (λ w,
    {| session := session w; session_ref := session_ref w;
       next_id := next_id w; stoppedTracks := stoppedTracks w;
       channelState := channelState w; connectionState := connectionState w;
       senders := senders w; srcObject := srcObject w; sent := sent w;
       console := console w ++ [e]; dispatched := dispatched w |}).

(** [window.dispatchEvent(new CustomEvent(name, { detail }))]. *)
Definition dispatchEvent (name : string) (d : JsValue) : Eff World unit :=
  modify (λ w,
    {| session := session w; session_ref := session_ref w;
       next_id := next_id w; stoppedTracks := stoppedTracks w;
       channelState := channelState w; connectionState := connectionState w;
       senders := senders w; srcObject := srcObject w; sent := sent w;
       console := console w;
       dispatched := dispatched w ++ [{| event_name := name; detail := d |}] |}).

(** ** What the module imports *)

(** [OPENAI_API_KEY] is exported by [../config], a file the sources at hand
    do not include: a string, or [undefined].  [JSON_parse] is the
    runtime's [JSON.parse], which throws on text that is not JSON. *)
Class Host : Type := {
  OPENAI_API_KEY : option string;
  JSON_parse : string → Outcome Json
}.

(** [!v] for a value that is a string or [undefined]. *)
Definition falsy (v : option string) : bool :=
  match v with
  | None => true
  | Some s => String.eqb s EmptyString
  end.

(** The body of an HTTP response. *)
Record HttpResponse : Type := {
  ok : bool;
  text : Outcome string
}.

(** What the browser and the network answer during one run of
    [initializeSession], each promise either fulfilled or rejected. *)
Record Platform : Type := {
  getUserMedia : Outcome nat;          (* fulfilled: a stream of that many tracks *)
  createOffer : Outcome string;        (* fulfilled: the offer's sdp *)
  setLocalDescription : Outcome unit;
  fetch : Outcome HttpResponse;
  setRemoteDescription : Outcome unit
}.

(** ** [class AudioService] *)

Module audioService.
Section AudioService.
Context `{Host}.

Definition initialWorld : World :=
  {| session := emptySession; session_ref := 0; next_id := 1;
     stoppedTracks := ∅; channelState := ∅; connectionState := ∅;
     senders := ∅; srcObject := ∅; sent := []; console := [];
     dispatched := [] |}.

Definition setupMediaStream (p : Platform) : Eff World MediaStream :=
  try_catch
    (n ← settle (getUserMedia p);
     first ← create (S n);
     mret {| stream_id := first; stream_tracks := seq (S first) n |})
    (λ error,
       throw (JsError ("Failed to access microphone: " +:+
                       messageOr "Unknown error" error))).

(** The [onconnectionstatechange] callback installed here is
    [onconnectionstatechange] below. *)
Definition createPeerConnection : Eff World nat :=
  pc ← create 1;
  set_connectionState pc PcNew ;;
  mret pc.

Definition stopStreaming : Eff World unit :=
  s ← gets session;
  match stream s with
  | Some ms =>
      forEach track_stop (stream_tracks ms) ;;
      assign (set_stream None)
  | None => mret tt
  end ;;
  assign (set_isInitialized false).

Definition cleanupSession : Eff World unit :=
  stopStreaming ;;
  s ← gets session;
  match dataChannel s with
  | Some d => set_channelState d ChClosed
  | None => mret tt
  end ;;
  match peerConnection s with
  | Some pc => set_connectionState pc PcClosed
  | None => mret tt
  end ;;
  match audioElement s with
  | Some a => set_srcObject a None
  | None => mret tt
  end ;;
  replaceSession
    {| peerConnection := None; dataChannel := None; stream := None;
       audioElement := None; isInitialized := false;
       retryCount := 0; maxRetries := 3 |}.

Definition disconnect : Eff World unit :=
  cleanupSession.

Definition startStreaming : Eff World unit :=
  s ← gets session;
  when (negb (isInitialized s))
    (throw (JsError "Session not initialized")) ;;
  when (negb (bool_decide (is_Some (stream s)))
        || negb (bool_decide (is_Some (peerConnection s))))
    (throw (JsError "Audio stream or peer connection not available")) ;;
  console_write (LogText "Audio streaming active").

Definition sendEvent (event : Json) : Eff World unit :=
  s ← gets session;
  readyState ← gets (λ w, d ← dataChannel s; channelState w !! d);
  match dataChannel s, readyState with
  | Some d, Some ChOpen => channel_send d event
  | _, _ => console_write (ConsoleWarn "Data channel not ready to send events")
  end.

Definition responseCreate : Json :=
  JObj [("type", JStr "response.create");
        ("response",
         JObj [("modalities", JArr [JStr "audio"; JStr "text"]);
               ("instructions",
                JStr "You are a friendly English tutor helping students practice their speaking skills.")])].

(** The four listeners [setupDataChannelHandlers] adds to a channel. *)
Definition handleDataChannelMessage (data : string) : Eff World unit :=
  try_catch
    (data ← settle (JSON_parse data);
     type ← settle (getProp data "type");
     if strictEqStr type "text" then
       d ← settle (getProp data "text");
       dispatchEvent "ai-message" d
     else if strictEqStr type "transcription" then
       d ← settle (getProp data "text");
       dispatchEvent "transcription" d
     else if strictEqStr type "error" then
       d ← settle (getProp data "error");
       dispatchEvent "call-error" d
     else
       console_write (LogReceived data))
    (λ error,
       console_write (ConsoleError "Error handling data channel message:" error)).

Definition onopen : Eff World unit :=
  console_write (LogText "Data channel opened") ;;
  sendEvent responseCreate.

Definition onclose : Eff World unit :=
  console_write (LogText "Data channel closed") ;;
  assign (set_isInitialized false).

Definition onerror (error : Thrown) : Eff World unit :=
  console_write (ConsoleError "Data channel error:" error) ;;
  assign (set_isInitialized false).

Definition createAndSendOffer (p : Platform) : Eff World unit :=
  s ← gets session;
  match peerConnection s with
  | None => throw (JsError "Peer connection not initialized")
  | Some _ =>
      offer ← settle (createOffer p);
      settle (setLocalDescription p) ;;
      sdpResponse ← settle (fetch p);
      (if negb (ok sdpResponse) then
         errorText ← settle (text sdpResponse);
         throw (JsError ("Failed to establish WebRTC connection: " +:+ errorText))
       else mret tt) ;;
      sdp ← settle (text sdpResponse);
      settle (setRemoteDescription p)
  end.

(** The statements of [initializeSession]'s [try] block that follow the
    teardown of the previous session. *)
Definition negotiate (p : Platform) : Eff World unit :=
  when (falsy OPENAI_API_KEY)
    (throw (JsError "OpenAI API key is not configured")) ;;
  ms ← setupMediaStream p;
  assign (set_stream (Some ms)) ;;
  pc ← createPeerConnection;
  assign (set_peerConnection (Some pc)) ;;
  s ← gets session;
  match stream s, peerConnection s with
  | Some ms, Some _ =>
      forEach (λ track,
                 s ← gets session;
                 match peerConnection s with
                 | Some pc => addTrack pc track
                 | None => mret tt
                 end)
              (stream_tracks ms)
  | _, _ => mret tt
  end ;;
  audio ← create 1;
  assign (set_audioElement (Some audio)) ;;
  (* peerConnection.ontrack = ...: the callback is [ontrack] below *)
  s ← gets session;
  match peerConnection s with
  | Some pc =>
      d ← create 1;
      set_channelState d ChConnecting ;;
      assign (set_dataChannel (Some d))
      (* setupDataChannelHandlers(dataChannel): the listeners above *)
  | None => mret tt
  end ;;
  createAndSendOffer p ;;
  console_write (LogText "WebRTC connection established successfully") ;;
  assign (set_isInitialized true) ;;
  assign (set_retryCount 0).

Definition initializeSession (p : Platform) : Eff World unit :=
  try_catch
    (cleanupSession ;;
     negotiate p)
    (λ error,
       cleanupSession ;;
       throw error).

Definition handleConnectionFailure (p : Platform) : Eff World unit :=
  s ← gets session;
  if retryCount s <? maxRetries s then
    assign (λ s, set_retryCount (S (retryCount s)) s) ;;
    s ← gets session;
    console_write (LogRetrying (retryCount s)) ;;
    initializeSession p
  else
    cleanupSession ;;
    throw (JsError "Connection failed after maximum retry attempts").

(** The callbacks [createPeerConnection] and [initializeSession] install
    on a peer connection. *)
Definition onconnectionstatechange (pc : nat) (p : Platform) : Eff World unit :=
  st ← gets (λ w, connectionState w !! pc);
  match st with
  | Some PcFailed => handleConnectionFailure p
  | _ => mret tt
  end.

Definition ontrack (remote : nat) : Eff World unit :=
  s ← gets session;
  match audioElement s with
  | Some a => set_srcObject a (Some remote)
  | None => mret tt
  end.

(** *** The session manager as a reactive system

    Between two method calls the browser may run the callbacks the
    manager installed.  A closed connection or channel has no further
    events, messages arrive on open channels only, and only [close()]
    makes a connection [closed]. *)
Inductive Event : Type :=
| CallInitializeSession (p : Platform)
| CallStartStreaming
| CallStopStreaming
| CallDisconnect
| ConnectionStateChange (pc : nat) (st : ConnectionState) (p : Platform)
| TrackArrived (pc : nat) (remote : nat)
| ChannelOpened (d : nat)
| ChannelMessage (d : nat) (data : string)
| ChannelClosed (d : nat)
| ChannelErrored (d : nat) (error : Thrown).

Definition live (st : option ConnectionState) : bool :=
  match st with
  | Some PcClosed | None => false
  | Some _ => true
  end.

Definition handle (ev : Event) : Eff World unit :=
  match ev with
  | CallInitializeSession p => initializeSession p
  | CallStartStreaming => startStreaming
  | CallStopStreaming => stopStreaming
  | CallDisconnect => disconnect
  | ConnectionStateChange pc st p =>
      cur ← gets (λ w, connectionState w !! pc);
      if live cur && live (Some st) then
        set_connectionState pc st ;;
        onconnectionstatechange pc p
      else mret tt
  | TrackArrived pc remote =>
      cur ← gets (λ w, connectionState w !! pc);
      if live cur then ontrack remote else mret tt
  | ChannelOpened d =>
      cur ← gets (λ w, channelState w !! d);
      match cur with
      | Some ChConnecting => set_channelState d ChOpen ;; onopen
      | _ => mret tt
      end
  | ChannelMessage d data =>
      cur ← gets (λ w, channelState w !! d);
      match cur with
      | Some ChOpen => handleDataChannelMessage data
      | _ => mret tt
      end
  | ChannelClosed d =>
      cur ← gets (λ w, channelState w !! d);
      match cur with
      | Some _ => set_channelState d ChClosed ;; onclose
      | None => mret tt
      end
  | ChannelErrored d error =>
      cur ← gets (λ w, channelState w !! d);
      match cur with
      | Some ChConnecting | Some ChOpen => onerror error
      | _ => mret tt
      end
  end.

(** An error thrown out of a callback reaches no caller; the world the
    callback leaves behind is what the next event finds. *)
Definition step (w : World) (ev : Event) : World := after (handle ev w).

Definition run (evs : list Event) (w : World) : World := fold_left step evs w.

Definition reachable (w : World) : Prop := ∃ evs, w = run evs initialWorld.

(** How many times the console shows a retry announced. *)
Definition isRetry (e : ConsoleEntry) : bool :=
  match e with LogRetrying _ => true | _ => false end.

Definition retriesLogged (w : World) : nat :=
  length (List.filter isRetry (console w)).

End AudioService.
End audioService.

(** ** [useAudioChat] *)

Module useAudioChat.
Section UseAudioChat.
Context `{Host}.

Record CallState : Type := {
  isConnected : bool;
  isListening : bool;
  error : option string;
  sessionId : option string
}.

Inductive PermissionState : Type := granted | denied | prompt.

(** The hook's own state (the [useState] cell and the [useRef] cell) next
    to the world of the session manager it calls. *)
Record App : Type := {
  callState : CallState;
  permissionStatus : option PermissionState;
  service : World
}.

Definition initialApp : App :=
  {| callState := {| isConnected := false; isListening := false;
                     error := None; sessionId := None |};
     permissionStatus := None;
     service := audioService.initialWorld |}.

(** [setCallState(prev => f(prev))]. *)
Definition setCallState (f : CallState → CallState) : Eff App unit :=
  modify (λ a, {| callState := f (callState a);
                  permissionStatus := permissionStatus a;
                  service := service a |}).

Definition set_permissionStatus (v : PermissionState) : Eff App unit :=
  modify (λ a, {| callState := callState a;
                  permissionStatus := Some v;
                  service := service a |}).

(** A call of a method of [audioService]. *)
Definition call {A} (m : Eff World A) : Eff App A :=
  λ a, match m (service a) with
       | (o, w) => (o, {| callState := callState a;
                          permissionStatus := permissionStatus a;
                          service := w |})
       end.

(** What the browser answers during one [initializeCall]. *)
Record CallEnv : Type := {
  randomUUID : Outcome string;
  permissionsQuery : Outcome PermissionState;
  platform : Platform
}.

Definition checkPermissions (env : CallEnv) : Eff App bool :=
  try_catch
    (result ← settle (permissionsQuery env);
     set_permissionStatus result ;;
     mret (match result with granted => true | _ => false end))
    (λ error,
       setCallState (λ prev,
         {| isConnected := isConnected prev; isListening := isListening prev;
            error := Some "Microphone permission check failed";
            sessionId := sessionId prev |}) ;;
       mret false).

Definition initializeCall (env : CallEnv) : Eff App bool :=
  try_catch
    (sessionId' ← settle (randomUUID env);
     hasPermission ← checkPermissions env;
     when (negb hasPermission)
       (throw (JsError "Microphone permission not granted")) ;;
     call (audioService.initializeSession (platform env)) ;;
     setCallState (λ prev,
       {| isConnected := true; isListening := isListening prev;
          error := None; sessionId := Some sessionId' |}) ;;
     mret true)
    (λ error,
       setCallState (λ prev,
         {| isConnected := false; isListening := isListening prev;
            error := Some (messageOr "Failed to initialize call" error);
            sessionId := None |}) ;;
       mret false).

Definition startListening (env : CallEnv) : Eff App unit :=
  try_catch
    (initialized ← initializeCall env;
     if negb initialized then mret tt
     else
       call audioService.startStreaming ;;
       setCallState (λ prev,
         {| isConnected := isConnected prev; isListening := true;
            error := None; sessionId := sessionId prev |}))
    (λ error,
       setCallState (λ prev,
         {| isConnected := isConnected prev; isListening := false;
            error := Some (messageOr "Failed to start call" error);
            sessionId := sessionId prev |})).

Definition stopListening : Eff App unit :=
  try_catch
    (call audioService.stopStreaming ;;
     setCallState (λ prev,
       {| isConnected := isConnected prev; isListening := false;
          error := None; sessionId := sessionId prev |}))
    (λ error,
       setCallState (λ prev,
         {| isConnected := isConnected prev; isListening := isListening prev;
            error := Some (messageOr "Failed to stop call" error);
            sessionId := sessionId prev |})).

Definition disconnect : Eff App unit :=
  call audioService.disconnect ;;
  setCallState (λ _,
    {| isConnected := false; isListening := false;
       error := None; sessionId := None |}).

End UseAudioChat.
End useAudioChat.

(** ** The screens ([App] and [MainScreen])

    Both screens give the same handler to the call button and the
    microphone button.  [isListening] is the field of the hook's call
    state the screen was rendered with. *)

Module App.
Section App.
Context `{Host}.

Definition toggleMicrophone (env : useAudioChat.CallEnv) : Eff useAudioChat.App unit :=
  gets (λ a : useAudioChat.App,
          useAudioChat.isListening (useAudioChat.callState a))
  ≫= λ isListening : bool,
       if isListening then
         useAudioChat.stopListening
       else
         useAudioChat.startListening env.

End App.
End App.

(** * Specification vocabulary *)

(** What it means for the browser objects a session record points to to be
    released in a world. *)
Definition tracksStopped (ms : option MediaStream) (w : World) : Prop :=
  match ms with
  | Some ms => Forall (λ t, t ∈ stoppedTracks w) (stream_tracks ms)
  | None => True
  end.

Definition channelClosed (d : option nat) (w : World) : Prop :=
  match d with
  | Some d => channelState w !! d = Some ChClosed
  | None => True
  end.

Definition connectionClosed (pc : option nat) (w : World) : Prop :=
  match pc with
  | Some pc => connectionState w !! pc = Some PcClosed
  | None => True
  end.

Definition audioDetached (a : option nat) (w : World) : Prop :=
  match a with
  | Some a => srcObject w !! a = None
  | None => True
  end.

(** The world [cleanupSession] leaves behind. *)
Definition released (w : World) : World :=
  {| session := emptySession;
     session_ref := next_id w;
     next_id := S (next_id w);
     stoppedTracks :=
       match stream (session w) with
       | Some ms => list_to_set (stream_tracks ms) ∪ stoppedTracks w
       | None => stoppedTracks w
       end;
     channelState :=
       match dataChannel (session w) with
       | Some d => <[d := ChClosed]> (channelState w)
       | None => channelState w
       end;
     connectionState :=
       match peerConnection (session w) with
       | Some pc => <[pc := PcClosed]> (connectionState w)
       | None => connectionState w
       end;
     senders := senders w;
     srcObject :=
       match audioElement (session w) with
       | Some a => delete a (srcObject w)
       | None => srcObject w
       end;
     sent := sent w; console := console w; dispatched := dispatched w |}.

Definition stopAll (l : list nat) (w : World) : World :=
  {| session := session w; session_ref := session_ref w;
     next_id := next_id w; stoppedTracks := list_to_set l ∪ stoppedTracks w;
     channelState := channelState w; connectionState := connectionState w;
     senders := senders w; srcObject := srcObject w; sent := sent w;
     console := console w; dispatched := dispatched w |}.

Definition withSenders (v : gmap nat (list nat)) (w : World) : World :=
  {| session := session w; session_ref := session_ref w;
     next_id := next_id w; stoppedTracks := stoppedTracks w;
     channelState := channelState w; connectionState := connectionState w;
     senders := v; srcObject := srcObject w; sent := sent w;
     console := console w; dispatched := dispatched w |}.

(** The record a successful [initializeSession] builds when objects are
    numbered from [first] on and the captured stream has [n] tracks. *)
Definition establishedSession (first n limit : nat) : AudioSession :=
  {| peerConnection := Some (S (n + first));
     dataChannel := Some (S (S (S (n + first))));
     stream := Some {| stream_id := first; stream_tracks := seq (S first) n |};
     audioElement := Some (S (S (n + first)));
     isInitialized := true;
     retryCount := 0;
     maxRetries := limit |}.

Definition tracksOf (p : Platform) : nat :=
  match getUserMedia p with
  | Returned n => n
  | Threw _ => 0
  end.

(** The first step of an initialization that fails, with what it throws:
    the credential, the capture, then the offer/answer exchange. *)
Definition firstFailure `{Host} (p : Platform) : option Thrown :=
  if falsy OPENAI_API_KEY then
    Some (JsError "OpenAI API key is not configured")
  else
    match getUserMedia p with
    | Threw e =>
        Some (JsError ("Failed to access microphone: " +:+ messageOr "Unknown error" e))
    | Returned _ =>
    match createOffer p with
    | Threw e => Some e
    | Returned _ =>
    match setLocalDescription p with
    | Threw e => Some e
    | Returned _ =>
    match fetch p with
    | Threw e => Some e
    | Returned response =>
    match text response with
    | Threw e => Some e
    | Returned body =>
        if ok response then
          match setRemoteDescription p with
          | Threw e => Some e
          | Returned _ => None
          end
        else
          Some (JsError ("Failed to establish WebRTC connection: " +:+ body))
    end end end end end.

(** The record an [initializeSession] leaves, as a function of the
    platform's answers and of the numbering of objects alone. *)
Definition sessionAfterInitialize `{Host} (p : Platform) (next : nat) : AudioSession :=
  match firstFailure p with
  | Some _ => emptySession
  | None => establishedSession (S next) (tracksOf p) 3
  end.

(** The retry budget of a session is intact when none of it is used. *)
Definition budgetIntact (w : World) : Prop :=
  retryCount (session w) = 0 ∧ maxRetries (session w) = 3.

(** The record [this.session] points to is among the objects created so
    far. *)
Definition wellNumbered (w : World) : Prop :=
  session_ref w < next_id w.

(** The world in which [handleConnectionFailure] starts its retry: one
    more retry counted and announced on the console. *)
Definition announced (w : World) : World :=
  {| session := set_retryCount (S (retryCount (session w))) (session w);
     session_ref := session_ref w;
     next_id := next_id w; stoppedTracks := stoppedTracks w;
     channelState := channelState w; connectionState := connectionState w;
     senders := senders w; srcObject := srcObject w; sent := sent w;
     console := console w ++ [LogRetrying (S (retryCount (session w)))];
     dispatched := dispatched w |}.

(** What [initializeSession] gives its caller, by the platform's answers. *)
Definition initializeOutcome `{Host} (p : Platform) : Outcome unit :=
  match firstFailure p with
  | Some e => Threw e
  | None => Returned tt
  end.

(** The [type] of a payload and its other properties, [undefined] when the
    payload has none. *)
Definition property (k : string) (data : Json) : JsValue :=
  match data with
  | JObj fields => assoc k fields
  | _ => undefined
  end.

(** The claim that a method refuses to run on a session that is not
    initialized. *)
Definition guardsOnFlag (m : Eff World unit) : Prop :=
  ∀ w, isInitialized (session w) = false → ∃ e, outcome (m w) = Threw e.

(** ** A host and a platform to run the program on *)

Definition quoted (s : string) : string :=
  String (Ascii.ascii_of_nat 34) s +:+ String (Ascii.ascii_of_nat 34) EmptyString.

(** The text [{"type":"text","text":"Hello"}]. *)
Definition textPayload : string :=
  "{" +:+ quoted "type" +:+ ":" +:+ quoted "text" +:+ ","
      +:+ quoted "text" +:+ ":" +:+ quoted "Hello" +:+ "}".

Definition textData : Json :=
  JObj [("type", JStr "text"); ("text", JStr "Hello")].

(** The text [{"type":"session.created"}]. *)
Definition otherPayload : string :=
  "{" +:+ quoted "type" +:+ ":" +:+ quoted "session.created" +:+ "}".

Definition otherData : Json :=
  JObj [("type", JStr "session.created")].

(** A host with a credential, whose [JSON.parse] is given on the payloads
    above and on [null], and rejects the rest. *)
Definition sampleHost : Host :=
  {| OPENAI_API_KEY := Some "sk-sample";
     JSON_parse raw :=
       if String.eqb raw textPayload then Returned textData
       else if String.eqb raw otherPayload then Returned otherData
       else if String.eqb raw "null" then Returned JNull
       else Threw (JsError "Unexpected token") |}.

(** A platform on which everything succeeds: one audio track, and a
    signalling endpoint that answers. *)
Definition working : Platform :=
  {| getUserMedia := Returned 1;
     createOffer := Returned "v=0 offer";
     setLocalDescription := Returned tt;
     fetch := Returned {| ok := true; text := Returned "v=0 answer" |};
     setRemoteDescription := Returned tt |}.

(** A platform on which the microphone cannot be captured. *)
Definition noMicrophone : Platform :=
  {| getUserMedia := Threw (JsError "Permission denied");
     createOffer := Returned "v=0 offer";
     setLocalDescription := Returned tt;
     fetch := Returned {| ok := true; text := Returned "v=0 answer" |};
     setRemoteDescription := Returned tt |}.

(** A session is set up, and then four times in a row the transport of
    the connection just made fails (the connections are the objects 4, 10,
    16 and 22) and the retry succeeds. *)
Definition fourFailures : list audioService.Event :=
  [audioService.CallInitializeSession working;
   audioService.ConnectionStateChange 4 PcFailed working;
   audioService.ConnectionStateChange 10 PcFailed working;
   audioService.ConnectionStateChange 16 PcFailed working;
   audioService.ConnectionStateChange 22 PcFailed working].

(** A platform whose signalling endpoint refuses the offer. *)
Definition rejected : Platform :=
  {| getUserMedia := Returned 1;
     createOffer := Returned "v=0 offer";
     setLocalDescription := Returned tt;
     fetch := Returned {| ok := false; text := Returned "Unauthorized" |};
     setRemoteDescription := Returned tt |}.

(** A call for which the permission is granted and everything succeeds,
    one for which the permission is denied, and one for which the
    microphone cannot be captured. *)
Definition grantedCall : useAudioChat.CallEnv :=
  {| useAudioChat.randomUUID := Returned "0b9d6f2e-5c1a-4f7e-9a3b-2d8e4c6f1a70";
     useAudioChat.permissionsQuery := Returned useAudioChat.granted;
     useAudioChat.platform := working |}.

Definition deniedCall : useAudioChat.CallEnv :=
  {| useAudioChat.randomUUID := Returned "0b9d6f2e-5c1a-4f7e-9a3b-2d8e4c6f1a70";
     useAudioChat.permissionsQuery := Returned useAudioChat.denied;
     useAudioChat.platform := working |}.

Definition captureFailsCall : useAudioChat.CallEnv :=
  {| useAudioChat.randomUUID := Returned "0b9d6f2e-5c1a-4f7e-9a3b-2d8e4c6f1a70";
     useAudioChat.permissionsQuery := Returned useAudioChat.granted;
     useAudioChat.platform := noMicrophone |}.

(** ** Vocabulary for the worlds an initialization goes through *)

(** The tracks of [tracks] given one by one to [pc.addTrack]. *)
Definition attach (pc : nat) (tracks : list nat)
    (s : gmap nat (list nat)) : gmap nat (list nat) :=
  fold_left (λ s t, <[pc := default [] (s !! pc) ++ [t]]> s) tracks s.

(** The world in which [negotiate] starts the offer/answer exchange, from
    [w], after a capture of [n] tracks: stream, connection, audio element
    and channel are created and stored in the session, in that order. *)
Definition built (n : nat) (w : World) : World :=
  {| session :=
       set_dataChannel (Some (S (S (S (n + next_id w)))))
         (set_audioElement (Some (S (S (n + next_id w))))
            (set_peerConnection (Some (S (n + next_id w)))
               (set_stream
                  (Some {| stream_id := next_id w;
                           stream_tracks := seq (S (next_id w)) n |})
                  (session w))));
     session_ref := session_ref w;
     next_id := S (S (S (S (n + next_id w))));
     stoppedTracks := stoppedTracks w;
     channelState := <[S (S (S (n + next_id w))) := ChConnecting]> (channelState w);
     connectionState := <[S (n + next_id w) := PcNew]> (connectionState w);
     senders := attach (S (n + next_id w)) (seq (S (next_id w)) n) (senders w);
     srcObject := srcObject w; sent := sent w; console := console w;
     dispatched := dispatched w |}.

(** The world [negotiate] ends in when the exchange succeeds. *)
Definition finished (n : nat) (w : World) : World :=
  {| session := set_retryCount 0 (set_isInitialized true (session (built n w)));
     session_ref := session_ref w;
     next_id := next_id (built n w);
     stoppedTracks := stoppedTracks w;
     channelState := channelState (built n w);
     connectionState := connectionState (built n w);
     senders := senders (built n w);
     srcObject := srcObject w; sent := sent w;
     console := console w ++ [LogText "WebRTC connection established successfully"];
     dispatched := dispatched w |}.

(** What the offer/answer exchange throws, if it fails. *)
Definition exchangeFailure (p : Platform) : option Thrown :=
  match createOffer p with
  | Threw e => Some e
  | Returned _ =>
  match setLocalDescription p with
  | Threw e => Some e
  | Returned _ =>
  match fetch p with
  | Threw e => Some e
  | Returned response =>
  match text response with
  | Threw e => Some e
  | Returned body =>
      if ok response then
        match setRemoteDescription p with
        | Threw e => Some e
        | Returned _ => None
        end
      else
        Some (JsError ("Failed to establish WebRTC connection: " +:+ body))
  end end end end.

(** The result of [initializeSession], step by step. *)
Definition initialized `{Host} (p : Platform) (w : World) : Outcome unit * World :=
  if falsy OPENAI_API_KEY then
    (Threw (JsError "OpenAI API key is not configured"), released (released w))
  else
    match getUserMedia p with
    | Threw e =>
        (Threw (JsError ("Failed to access microphone: "
                         +:+ messageOr "Unknown error" e)),
         released (released w))
    | Returned n =>
        match exchangeFailure p with
        | Some e => (Threw e, released (built n (released w)))
        | None => (Returned tt, finished n (released w))
        end
    end.

(** At most one connection and one channel are not closed, and they are
    the ones of the session. *)
Definition singleSession (w : World) : Prop :=
  (∀ k st, connectionState w !! k = Some st →
     st = PcClosed ∨ peerConnection (session w) = Some k)
  ∧ (∀ k st, channelState w !! k = Some st →
       st = ChClosed ∨ dataChannel (session w) = Some k).

Definition allClosed (w : World) : Prop :=
  (∀ k st, connectionState w !! k = Some st → st = PcClosed)
  ∧ (∀ k st, channelState w !! k = Some st → st = ChClosed).

(** Tracks were given to connections that exist only. *)
Definition sendersNumbered (w : World) : Prop :=
  ∀ k, is_Some (senders w !! k) → k < next_id w.

Definition coherent (w : World) : Prop :=
  singleSession w ∧ sendersNumbered w.

(** The call state [initializeCall] leaves when it fails with [e]. *)
Definition failedCall (prev : useAudioChat.CallState) (e : Thrown) : useAudioChat.CallState :=
  {| useAudioChat.isConnected := false;
     useAudioChat.isListening := useAudioChat.isListening prev;
     useAudioChat.error := Some (messageOr "Failed to initialize call" e);
     useAudioChat.sessionId := None |}.

(** A host without a credential. *)
Definition keylessHost : Host :=
  {| OPENAI_API_KEY := None;
     JSON_parse := @JSON_parse sampleHost |}.

(** ['failed'] among the connection states. *)
Definition isFailed (st : ConnectionState) : bool :=
  match st with PcFailed => true | _ => false end.

(** * Properties *)

Section Properties.
Context `{Host}.
Import audioService.

Ltac run_eff :=
  repeat (unfold mbind, mret, Eff_bind, Eff_ret, eff_bind, eff_ret, throw,
          try_catch, gets, modify, settle, when, outcome, after; simpl).

Lemma bind_run {S A B} (m : Eff S A) (k : A → Eff S B) (s : S) :
  (m ≫= k) s = match m s with
               | (Returned a, s') => k a s'
               | (Threw e, s') => (Threw e, s')
               end.
Proof. reflexivity. Qed.

(** ** Teardown *)

Lemma forEach_track_stop l w :
  forEach track_stop l w = (Returned tt, stopAll l w).
Proof.
  revert w. induction l as [|t l IH]; intros w.
  - destruct w. unfold stopAll. simpl. by rewrite (left_id_L ∅ (∪)).
  - cbn [forEach]. rewrite bind_run. unfold track_stop at 1, modify.
    rewrite IH. unfold stopAll. simpl. do 2 f_equal.
    rewrite !(assoc_L (∪)). f_equal. apply (comm_L (∪)).
Qed.

Lemma stopStreaming_eq w :
  stopStreaming w =
  (Returned tt,
   after (assign (λ s, set_isInitialized false (set_stream None s))
            (match stream (session w) with
             | Some ms => stopAll (stream_tracks ms) w
             | None => w
             end))).
Proof.
  unfold stopStreaming. rewrite bind_run. unfold gets.
  destruct w as [[pc d [ms|] a i r m] sr n st cs ps sd so se co di]; run_eff.
  - rewrite forEach_track_stop. reflexivity.
  - reflexivity.
Qed.

Lemma cleanupSession_eq w : cleanupSession w = (Returned tt, released w).
Proof.
  unfold cleanupSession. rewrite bind_run, stopStreaming_eq. unfold released.
  destruct w as [[pc d ms a i r m] sr n st cs ps sd so se co di]; simpl.
  destruct ms as [ms|]; destruct d as [d|]; destruct pc as [pc|];
    destruct a as [a|]; reflexivity.
Qed.

Lemma released_tracks w : tracksStopped (stream (session w)) (released w).
Proof.
  unfold tracksStopped, released. destruct (stream (session w)) as [ms|]; [|done].
  simpl. apply Forall_forall. intros t Ht.
  apply elem_of_union_l, elem_of_list_to_set, Ht.
Qed.

Lemma released_channel w : channelClosed (dataChannel (session w)) (released w).
Proof.
  unfold channelClosed, released. destruct (dataChannel (session w)); [|done].
  simpl. apply lookup_insert_eq.
Qed.

Lemma released_connection w :
  connectionClosed (peerConnection (session w)) (released w).
Proof.
  unfold connectionClosed, released. destruct (peerConnection (session w)); [|done].
  simpl. apply lookup_insert_eq.
Qed.

Lemma released_audio w : audioDetached (audioElement (session w)) (released w).
Proof.
  unfold audioDetached, released. destruct (audioElement (session w)); [|done].
  simpl. apply lookup_delete_eq.
Qed.

(** C3.  Whatever the session was, [disconnect()] returns, and then the
    tracks of the stream it held are stopped, the data channel and the
    peer connection it held are closed, the audio element it held is
    detached, all four handles of the session are null, [isInitialized] is
    false and [retryCount] is 0. *)
Theorem disconnect_releases_every_handle (w : World) :
  outcome (disconnect w) = Returned tt
  ∧ tracksStopped (stream (session w)) (after (disconnect w))
  ∧ channelClosed (dataChannel (session w)) (after (disconnect w))
  ∧ connectionClosed (peerConnection (session w)) (after (disconnect w))
  ∧ audioDetached (audioElement (session w)) (after (disconnect w))
  ∧ stream (session (after (disconnect w))) = None
  ∧ dataChannel (session (after (disconnect w))) = None
  ∧ peerConnection (session (after (disconnect w))) = None
  ∧ audioElement (session (after (disconnect w))) = None
  ∧ isInitialized (session (after (disconnect w))) = false
  ∧ retryCount (session (after (disconnect w))) = 0.
Proof.
  unfold disconnect. rewrite cleanupSession_eq. unfold outcome, after; simpl.
  split; [reflexivity|].
  split; [apply released_tracks|].
  split; [apply released_channel|].
  split; [apply released_connection|].
  split; [apply released_audio|].
  repeat split.
Qed.

(** C5.  Whatever the session was, [stopStreaming()] returns, and then
    every track of the stream it held is stopped, [stream] is null and
    [isInitialized] is false, while [peerConnection], [dataChannel],
    [audioElement], [retryCount] (and [maxRetries], and the identity of the
    record) are what they were. *)
Theorem stopStreaming_stops_tracks_only (w : World) :
  outcome (stopStreaming w) = Returned tt
  ∧ tracksStopped (stream (session w)) (after (stopStreaming w))
  ∧ stream (session (after (stopStreaming w))) = None
  ∧ isInitialized (session (after (stopStreaming w))) = false
  ∧ peerConnection (session (after (stopStreaming w))) = peerConnection (session w)
  ∧ dataChannel (session (after (stopStreaming w))) = dataChannel (session w)
  ∧ audioElement (session (after (stopStreaming w))) = audioElement (session w)
  ∧ retryCount (session (after (stopStreaming w))) = retryCount (session w)
  ∧ maxRetries (session (after (stopStreaming w))) = maxRetries (session w)
  ∧ session_ref (after (stopStreaming w)) = session_ref w.
Proof.
  rewrite stopStreaming_eq. unfold outcome, after, assign, modify, tracksStopped.
  destruct (stream (session w)) as [ms|]; simpl; repeat split.
  apply Forall_forall. intros t Ht.
  apply elem_of_union_l, elem_of_list_to_set, Ht.
Qed.

(** Neither the channels, the connections nor the audio elements are
    touched by [stopStreaming]. *)
Lemma stopStreaming_frame (w : World) :
  channelState (after (stopStreaming w)) = channelState w
  ∧ connectionState (after (stopStreaming w)) = connectionState w
  ∧ srcObject (after (stopStreaming w)) = srcObject w
  ∧ console (after (stopStreaming w)) = console w
  ∧ dispatched (after (stopStreaming w)) = dispatched w.
Proof.
  rewrite stopStreaming_eq. unfold after, assign, modify.
  destruct (stream (session w)); simpl; repeat split.
Qed.

(** ** [startStreaming] *)

Lemma startStreaming_eq (w : World) :
  startStreaming w =
  if negb (isInitialized (session w)) then
    (Threw (JsError "Session not initialized"), w)
  else if negb (bool_decide (is_Some (stream (session w))))
          || negb (bool_decide (is_Some (peerConnection (session w)))) then
    (Threw (JsError "Audio stream or peer connection not available"), w)
  else
    console_write (LogText "Audio streaming active") w.
Proof.
  unfold startStreaming. rewrite bind_run. unfold gets.
  destruct (isInitialized (session w)); [|reflexivity].
  rewrite bind_run. simpl.
  destruct (negb (bool_decide (is_Some (stream (session w))))
            || negb (bool_decide (is_Some (peerConnection (session w)))));
    reflexivity.
Qed.

(** C9.  [startStreaming] changes no field of the session: it throws one
    of its two errors or returns, and in each case the session record
    after the call is the one before it, the same object with the same
    fields (and no browser object has changed state). *)
Theorem startStreaming_leaves_session (w : World) :
  session (after (startStreaming w)) = session w
  ∧ session_ref (after (startStreaming w)) = session_ref w
  ∧ stoppedTracks (after (startStreaming w)) = stoppedTracks w
  ∧ channelState (after (startStreaming w)) = channelState w
  ∧ connectionState (after (startStreaming w)) = connectionState w
  ∧ srcObject (after (startStreaming w)) = srcObject w
  ∧ (outcome (startStreaming w) = Threw (JsError "Session not initialized")
     ∨ outcome (startStreaming w)
       = Threw (JsError "Audio stream or peer connection not available")
     ∨ outcome (startStreaming w) = Returned tt).
Proof.
  rewrite startStreaming_eq.
  destruct (negb (isInitialized (session w))).
  { unfold after, outcome; simpl. repeat split. by left. }
  destruct (negb (bool_decide (is_Some (stream (session w))))
            || negb (bool_decide (is_Some (peerConnection (session w))))).
  { unfold after, outcome; simpl. repeat split. right; by left. }
  unfold after, outcome, console_write, modify; simpl. repeat split.
  right; by right.
Qed.

(** C4, as the code has it.  Only [startStreaming] looks at the flag: on a
    session that is not initialized it throws 'Session not initialized'.
    [stopStreaming] and [disconnect] have no guard: in every state,
    initialized or not, they return normally. *)
Theorem only_startStreaming_guards (w : World) :
  (isInitialized (session w) = false →
   outcome (startStreaming w) = Threw (JsError "Session not initialized"))
  ∧ outcome (stopStreaming w) = Returned tt
  ∧ outcome (disconnect w) = Returned tt.
Proof.
  split; [|split].
  - intros Hflag. rewrite startStreaming_eq, Hflag. reflexivity.
  - by rewrite stopStreaming_eq.
  - unfold disconnect. by rewrite cleanupSession_eq.
Qed.

(** ** The data-channel message handler *)

Lemma getProp_property (data : Json) (k : string) :
  data ≠ JNull → getProp data k = Returned (property k data).
Proof. destruct data; intros Hnull; [done|reflexivity..]. Qed.

(** What the handler does once the payload has parsed to [data]. *)
Lemma handleDataChannelMessage_parsed (raw : string) (data : Json) (w : World) :
  JSON_parse raw = Returned data →
  handleDataChannelMessage raw w =
  match data with
  | JNull =>
      console_write
        (ConsoleError "Error handling data channel message:"
           (JsError "Cannot read properties of null")) w
  | _ =>
      if strictEqStr (property "type" data) "text" then
        dispatchEvent "ai-message" (property "text" data) w
      else if strictEqStr (property "type" data) "transcription" then
        dispatchEvent "transcription" (property "text" data) w
      else if strictEqStr (property "type" data) "error" then
        dispatchEvent "call-error" (property "error" data) w
      else
        console_write (LogReceived data) w
  end.
Proof.
  intros Hparse. unfold handleDataChannelMessage, try_catch.
  rewrite bind_run. unfold settle at 1. rewrite Hparse.
  destruct data as [|b|n|s|items|fields]; try reflexivity.
  rewrite bind_run. unfold settle at 1. cbn [getProp property].
  destruct (strictEqStr (assoc "type" fields) "text"); [reflexivity|].
  destruct (strictEqStr (assoc "type" fields) "transcription"); [reflexivity|].
  destruct (strictEqStr (assoc "type" fields) "error"); reflexivity.
Qed.

Lemma handleDataChannelMessage_malformed (raw : string) (e : Thrown) (w : World) :
  JSON_parse raw = Threw e →
  handleDataChannelMessage raw w =
  console_write (ConsoleError "Error handling data channel message:" e) w.
Proof.
  intros Hparse. unfold handleDataChannelMessage, try_catch.
  rewrite bind_run. unfold settle at 1. by rewrite Hparse.
Qed.

Lemma strictEqStr_true (v : JsValue) (lit : string) :
  strictEqStr v lit = true ↔ v = Some (JStr lit).
Proof.
  unfold strictEqStr. destruct v as [[]|]; try (split; [done|congruence]).
  rewrite String.eqb_eq. split; congruence.
Qed.

(** C6.  When the payload parses, what is dispatched is decided by its
    [type]: 'text' gives one 'ai-message' carrying the payload's [text],
    'transcription' one 'transcription' carrying its [text], 'error' one
    'call-error' carrying its [error], each with nothing logged; any other
    payload gives no notification and exactly one console entry (the
    payload itself, or for the payload [null] the caught TypeError). *)
Theorem message_dispatch_by_type (raw : string) (data : Json) (w : World) :
  JSON_parse raw = Returned data →
  (property "type" data = Some (JStr "text") →
     dispatched (after (handleDataChannelMessage raw w))
     = dispatched w ++ [{| event_name := "ai-message";
                           detail := property "text" data |}]
     ∧ console (after (handleDataChannelMessage raw w)) = console w)
  ∧ (property "type" data = Some (JStr "transcription") →
     dispatched (after (handleDataChannelMessage raw w))
     = dispatched w ++ [{| event_name := "transcription";
                           detail := property "text" data |}]
     ∧ console (after (handleDataChannelMessage raw w)) = console w)
  ∧ (property "type" data = Some (JStr "error") →
     dispatched (after (handleDataChannelMessage raw w))
     = dispatched w ++ [{| event_name := "call-error";
                           detail := property "error" data |}]
     ∧ console (after (handleDataChannelMessage raw w)) = console w)
  ∧ (property "type" data ≠ Some (JStr "text") →
     property "type" data ≠ Some (JStr "transcription") →
     property "type" data ≠ Some (JStr "error") →
     dispatched (after (handleDataChannelMessage raw w)) = dispatched w
     ∧ console (after (handleDataChannelMessage raw w))
       = console w ++ [match data with
                       | JNull =>
                           ConsoleError "Error handling data channel message:"
                             (JsError "Cannot read properties of null")
                       | _ => LogReceived data
                       end]).
Proof.
  intros Hparse. rewrite (handleDataChannelMessage_parsed _ _ _ Hparse).
  destruct (strictEqStr (property "type" data) "text") eqn:Etext;
    [apply strictEqStr_true in Etext|];
    [|destruct (strictEqStr (property "type" data) "transcription") eqn:Etr;
      [apply strictEqStr_true in Etr|];
      [|destruct (strictEqStr (property "type" data) "error") eqn:Eerr;
        [apply strictEqStr_true in Eerr|]]].
  - destruct data; try discriminate Etext.
    repeat split; intros; try congruence; try reflexivity.
  - destruct data; try discriminate Etr.
    repeat split; intros; try congruence; try reflexivity.
  - destruct data; try discriminate Eerr.
    repeat split; intros; try congruence; try reflexivity.
  - assert (Htext : property "type" data ≠ Some (JStr "text"))
      by (intros E; apply strictEqStr_true in E; congruence).
    assert (Htr : property "type" data ≠ Some (JStr "transcription"))
      by (intros E; apply strictEqStr_true in E; congruence).
    assert (Herr : property "type" data ≠ Some (JStr "error"))
      by (intros E; apply strictEqStr_true in E; congruence).
    repeat split; intros; try contradiction; destruct data; reflexivity.
Qed.

(** The handler changes nothing of the session, whatever the payload. *)
Lemma handleDataChannelMessage_session (raw : string) (w : World) :
  outcome (handleDataChannelMessage raw w) = Returned tt
  ∧ session (after (handleDataChannelMessage raw w)) = session w
  ∧ session_ref (after (handleDataChannelMessage raw w)) = session_ref w
  ∧ next_id (after (handleDataChannelMessage raw w)) = next_id w.
Proof.
  destruct (JSON_parse raw) as [data|e] eqn:Hparse.
  - rewrite (handleDataChannelMessage_parsed _ _ _ Hparse).
    destruct data;
      repeat match goal with
             | |- context [if ?b then _ else _] => destruct b
             end; repeat split.
  - rewrite (handleDataChannelMessage_malformed _ _ _ Hparse). repeat split.
Qed.

(** C10.  The handler never throws, whatever the payload, and leaves the
    session as it was; when the payload is not JSON the parse error is
    caught and written to the console, and nothing is dispatched. *)
Theorem message_handler_never_throws (raw : string) (w : World) :
  outcome (handleDataChannelMessage raw w) = Returned tt
  ∧ session (after (handleDataChannelMessage raw w)) = session w
  ∧ session_ref (after (handleDataChannelMessage raw w)) = session_ref w
  ∧ (∀ e, JSON_parse raw = Threw e →
       dispatched (after (handleDataChannelMessage raw w)) = dispatched w
       ∧ console (after (handleDataChannelMessage raw w))
         = console w ++ [ConsoleError "Error handling data channel message:" e]).
Proof.
  destruct (handleDataChannelMessage_session raw w) as (Hout & Hs & Hr & _).
  repeat (split; [assumption|]).
  intros e Hparse. rewrite (handleDataChannelMessage_malformed _ _ _ Hparse).
  split; reflexivity.
Qed.

(** ** Initialization *)

Lemma forEach_addTrack (l : list nat) : ∀ (w : World) (pc : nat),
  peerConnection (session w) = Some pc →
  ∃ v, forEach (λ track,
                  s ← gets session;
                  match peerConnection s with
                  | Some pc => addTrack pc track
                  | None => mret tt
                  end) l w = (Returned tt, withSenders v w).
Proof.
  induction l as [|t l IH]; intros w pc Hpc.
  - exists (senders w). by destruct w.
  - pose (v1 := <[pc := default [] (senders w !! pc) ++ [t]]> (senders w)).
    destruct (IH (withSenders v1 w) pc Hpc) as [v Hv].
    exists v. cbn [forEach]. rewrite bind_run.
    replace ((gets session ≫= _) w) with (Returned tt, withSenders v1 w).
    + by rewrite Hv.
    + rewrite bind_run. unfold gets. by rewrite Hpc.
Qed.

(** [negotiate] from any world: it stops at the first failing step with
    that step's error, or else builds the whole record. *)
Lemma negotiate_spec (p : Platform) (w : World) :
  ∃ w1,
    match firstFailure p with
    | Some e =>
        negotiate p w = (Threw e, w1) ∧ console w1 = console w
    | None =>
        negotiate p w = (Returned tt, w1)
        ∧ session w1
          = establishedSession (next_id w) (tracksOf p) (maxRetries (session w))
        ∧ console w1
          = console w ++ [LogText "WebRTC connection established successfully"]
    end
    ∧ session_ref w1 = session_ref w
    ∧ next_id w ≤ next_id w1
    ∧ dispatched w1 = dispatched w
    ∧ sent w1 = sent w.
Proof.
  unfold negotiate, firstFailure, tracksOf.
  destruct p as [gum co sld fe srd]; cbn [getUserMedia createOffer
    setLocalDescription fetch setRemoteDescription].
  unfold setupMediaStream, createPeerConnection, createAndSendOffer.
  destruct (falsy OPENAI_API_KEY).
  { eexists. run_eff. repeat split; first [reflexivity | cbn; lia]. }
  destruct gum as [n|e]; cbn [getUserMedia].
  2:{ eexists. run_eff. repeat split; first [reflexivity | cbn; lia]. }
  run_eff. unfold create, assign, set_connectionState. run_eff.
  edestruct (forEach_addTrack (seq (S (next_id w)) n)) as [v Hv];
    [|rewrite Hv]; [reflexivity|].
  run_eff. unfold set_channelState. run_eff.
  destruct co as [sdp|e]; [|eexists; run_eff; repeat split; first [reflexivity | cbn; lia]].
  destruct sld as [[]|e]; [|eexists; run_eff; repeat split; first [reflexivity | cbn; lia]].
  destruct fe as [[o t]|e]; [|eexists; run_eff; repeat split; first [reflexivity | cbn; lia]].
  destruct o, t as [t|e]; run_eff;
    try (eexists; run_eff; repeat split; first [reflexivity | cbn; lia]).
  destruct srd as [[]|e]; eexists; unfold console_write; run_eff;
    repeat split; first [reflexivity | cbn; lia].
Qed.

Lemma initializeSession_eq (p : Platform) (w : World) :
  initializeSession p w =
  try_catch (negotiate p) (λ error, cleanupSession ;; throw error) (released w).
Proof.
  unfold initializeSession, try_catch. by rewrite bind_run, cleanupSession_eq.
Qed.

(** [initializeSession] from any world. *)
Lemma initializeSession_spec (p : Platform) (w : World) :
  ∃ w1,
    match firstFailure p with
    | Some e =>
        initializeSession p w = (Threw e, w1)
        ∧ session w1 = emptySession
        ∧ console w1 = console w
    | None =>
        initializeSession p w = (Returned tt, w1)
        ∧ session w1 = establishedSession (S (next_id w)) (tracksOf p) 3
        ∧ console w1
          = console w ++ [LogText "WebRTC connection established successfully"]
    end
    ∧ next_id w ≤ session_ref w1
    ∧ session_ref w1 < next_id w1
    ∧ dispatched w1 = dispatched w
    ∧ sent w1 = sent w.
Proof.
  rewrite initializeSession_eq. unfold try_catch.
  destruct (negotiate_spec p (released w)) as (w1 & Hcase & Href & Hnext & Hd & Hs).
  destruct (firstFailure p) as [e|].
  - destruct Hcase as [-> Hconsole]. rewrite bind_run, cleanupSession_eq.
    exists (released w1). cbn in *. repeat split; try assumption; lia.
  - destruct Hcase as (-> & Hsession & Hconsole).
    exists w1. cbn in *. repeat split; try assumption; lia.
Qed.

(** C2.  When [initializeSession] throws, the caller receives the error of
    the step that failed (the missing credential, the wrapped capture
    error, or whatever the offer/answer exchange threw), and the session
    left behind is the torn-down one: the four handles null,
    [isInitialized] false, [retryCount] 0. *)
Theorem initializeSession_failure_tears_down (p : Platform) (w : World) (e : Thrown) :
  outcome (initializeSession p w) = Threw e →
  firstFailure p = Some e
  ∧ peerConnection (session (after (initializeSession p w))) = None
  ∧ dataChannel (session (after (initializeSession p w))) = None
  ∧ stream (session (after (initializeSession p w))) = None
  ∧ audioElement (session (after (initializeSession p w))) = None
  ∧ isInitialized (session (after (initializeSession p w))) = false
  ∧ retryCount (session (after (initializeSession p w))) = 0.
Proof.
  destruct (initializeSession_spec p w) as (w1 & Hcase & _).
  destruct (firstFailure p) as [e'|].
  - destruct Hcase as (-> & Hsession & _). unfold outcome, after; cbn [fst snd].
    rewrite Hsession. intros [= ->]. repeat split.
  - destruct Hcase as (-> & _). discriminate.
Qed.

(** The three failures the specification names do make it throw. *)
Lemma initializeSession_throws_without_key (p : Platform) (w : World) :
  falsy OPENAI_API_KEY = true →
  outcome (initializeSession p w)
  = Threw (JsError "OpenAI API key is not configured").
Proof.
  intros Hkey. destruct (initializeSession_spec p w) as (w1 & Hcase & _).
  unfold firstFailure in Hcase. rewrite Hkey in Hcase.
  by destruct Hcase as (-> & _).
Qed.

(** X21.  When the capture is refused, [initializeSession] throws an
    [Error] whose message is 'Failed to access microphone: ' followed by
    the message of the capture's error, or by 'Unknown error' when what
    the capture threw is no [Error]. *)
Lemma initializeSession_throws_without_capture (p : Platform) (w : World) (e : Thrown) :
  falsy OPENAI_API_KEY = false →
  getUserMedia p = Threw e →
  outcome (initializeSession p w)
  = Threw (JsError ("Failed to access microphone: " +:+ messageOr "Unknown error" e)).
Proof.
  intros Hkey Hcapture. destruct (initializeSession_spec p w) as (w1 & Hcase & _).
  unfold firstFailure in Hcase. rewrite Hkey, Hcapture in Hcase.
  by destruct Hcase as (-> & _).
Qed.

(** X22.  When the signalling endpoint answers with a status that is not
    2xx, [initializeSession] throws an [Error] whose message is 'Failed to
    establish WebRTC connection: ' followed by the body of the answer. *)
Lemma initializeSession_throws_on_http_error (p : Platform) (w : World)
    (n : nat) (sdp body : string) :
  falsy OPENAI_API_KEY = false →
  getUserMedia p = Returned n →
  createOffer p = Returned sdp →
  setLocalDescription p = Returned tt →
  fetch p = Returned {| ok := false; text := Returned body |} →
  outcome (initializeSession p w)
  = Threw (JsError ("Failed to establish WebRTC connection: " +:+ body)).
Proof.
  intros Hkey Hcapture Hoffer Hlocal Hfetch.
  destruct (initializeSession_spec p w) as (w1 & Hcase & _).
  unfold firstFailure in Hcase.
  rewrite Hkey, Hcapture, Hoffer, Hlocal, Hfetch in Hcase.
  by destruct Hcase as (-> & _).
Qed.

(** C7.  [initializeSession] begins with the teardown of the session it
    finds: it is the rest of its body run from the world [cleanupSession]
    leaves, in which the handles of the previous session are released and
    [this.session] is a new record with the initial fields.  The record at
    the end is again an object created during the call, and its fields are
    determined by the platform's answers and the numbering of objects: no
    field of the previous record enters them. *)
Theorem initializeSession_recreates_session (p : Platform) (w : World) :
  initializeSession p w
  = try_catch (negotiate p) (λ error, cleanupSession ;; throw error)
      (after (cleanupSession w))
  ∧ session (after (cleanupSession w)) = emptySession
  ∧ session_ref (after (cleanupSession w)) = next_id w
  ∧ tracksStopped (stream (session w)) (after (cleanupSession w))
  ∧ channelClosed (dataChannel (session w)) (after (cleanupSession w))
  ∧ connectionClosed (peerConnection (session w)) (after (cleanupSession w))
  ∧ audioDetached (audioElement (session w)) (after (cleanupSession w))
  ∧ next_id w ≤ session_ref (after (initializeSession p w))
  ∧ session (after (initializeSession p w)) = sessionAfterInitialize p (next_id w).
Proof.
  rewrite cleanupSession_eq. unfold after at 1 2 3 4 5 6 7. cbn [snd].
  split; [apply initializeSession_eq|].
  split; [reflexivity|]. split; [reflexivity|].
  split; [apply released_tracks|].
  split; [apply released_channel|].
  split; [apply released_connection|].
  split; [apply released_audio|].
  destruct (initializeSession_spec p w) as (w1 & Hcase & Href & _).
  unfold sessionAfterInitialize.
  destruct (firstFailure p).
  - destruct Hcase as (-> & Hsession & _). by split.
  - destruct Hcase as (-> & Hsession & _). by split.
Qed.

(** ** The retry policy *)

Lemma handleConnectionFailure_eq (p : Platform) (w : World) :
  handleConnectionFailure p w =
  if retryCount (session w) <? maxRetries (session w) then
    initializeSession p (announced w)
  else
    (Threw (JsError "Connection failed after maximum retry attempts"),
     released w).
Proof.
  unfold handleConnectionFailure. rewrite bind_run. unfold gets at 1.
  destruct (retryCount (session w) <? maxRetries (session w)).
  - reflexivity.
  - by rewrite bind_run, cleanupSession_eq.
Qed.

(** The branch the specification describes is there: with the budget used
    up, no initialization is started, the session is torn down and the
    terminal error thrown. *)
Lemma handleConnectionFailure_exhausted (p : Platform) (w : World) :
  maxRetries (session w) ≤ retryCount (session w) →
  handleConnectionFailure p w =
  (Threw (JsError "Connection failed after maximum retry attempts"), released w).
Proof.
  intros Hused. rewrite handleConnectionFailure_eq.
  by destruct (Nat.ltb_spec (retryCount (session w)) (maxRetries (session w))); [lia|].
Qed.

Lemma initializeSession_budget (p : Platform) (w : World) :
  budgetIntact (after (initializeSession p w)).
Proof.
  destruct (initializeSession_spec p w) as (w1 & Hcase & _).
  destruct (firstFailure p).
  - destruct Hcase as (-> & Hsession & _). unfold budgetIntact, after; cbn [snd].
    by rewrite Hsession.
  - destruct Hcase as (-> & Hsession & _). unfold budgetIntact, after; cbn [snd].
    by rewrite Hsession.
Qed.

Lemma handleConnectionFailure_budget (p : Platform) (w : World) :
  budgetIntact (after (handleConnectionFailure p w)).
Proof.
  rewrite handleConnectionFailure_eq.
  destruct (retryCount (session w) <? maxRetries (session w)).
  - apply initializeSession_budget.
  - by split.
Qed.

Lemma sendEvent_session (event : Json) (w : World) :
  session (after (sendEvent event w)) = session w
  ∧ session_ref (after (sendEvent event w)) = session_ref w
  ∧ next_id (after (sendEvent event w)) = next_id w.
Proof.
  unfold sendEvent. run_eff.
  destruct (dataChannel (session w)) as [d|]; [|by repeat split]. simpl.
  destruct (channelState w !! d) as [[]|]; by repeat split.
Qed.

(** Every event leaves the retry budget intact. *)
Lemma step_budget (w : World) (ev : Event) :
  budgetIntact w → budgetIntact (step w ev).
Proof.
  intros Hw. unfold step. destruct ev as [p| | | |pc st p|pc r|d|d raw|d|d e];
    cbn [handle].
  - apply initializeSession_budget.
  - rewrite startStreaming_eq.
    repeat match goal with
           | |- context [if ?b then _ else _] => destruct b
           end; exact Hw.
  - rewrite stopStreaming_eq. unfold after, assign, modify, budgetIntact.
    destruct (stream (session w)); exact Hw.
  - unfold disconnect. by rewrite cleanupSession_eq.
  - rewrite bind_run. unfold gets at 1.
    destruct (live (connectionState w !! pc) && live (Some st)); [|exact Hw].
    rewrite bind_run. unfold set_connectionState, modify.
    unfold onconnectionstatechange. rewrite bind_run. unfold gets at 1.
    cbn [connectionState]. rewrite lookup_insert_eq.
    destruct st; try exact Hw. apply handleConnectionFailure_budget.
  - rewrite bind_run. unfold gets at 1.
    destruct (live (connectionState w !! pc)); [|exact Hw].
    unfold ontrack. rewrite bind_run. unfold gets at 1.
    by destruct (audioElement (session w)).
  - rewrite bind_run. unfold gets at 1.
    destruct (channelState w !! d) as [[]|]; try exact Hw.
    rewrite bind_run. unfold set_channelState, modify, onopen.
    rewrite bind_run. unfold console_write at 1, modify.
    unfold budgetIntact.
    match goal with
    | |- context [sendEvent ?ev ?w0] =>
        destruct (sendEvent_session ev w0) as (-> & _)
    end.
    exact Hw.
  - rewrite bind_run. unfold gets at 1.
    destruct (channelState w !! d) as [[]|]; try exact Hw.
    unfold budgetIntact.
    by destruct (handleDataChannelMessage_session raw w) as (_ & -> & _).
  - rewrite bind_run. unfold gets at 1.
    by destruct (channelState w !! d) as [[]|].
  - rewrite bind_run. unfold gets at 1.
    by destruct (channelState w !! d) as [[]|].
Qed.

Lemma initializeSession_numbered (p : Platform) (w : World) :
  wellNumbered (after (initializeSession p w)).
Proof.
  destruct (initializeSession_spec p w) as (w1 & Hcase & _ & Href & _).
  destruct (firstFailure p).
  - by destruct Hcase as (-> & _).
  - by destruct Hcase as (-> & _).
Qed.

(** Every event leaves [this.session] pointing to an object that exists. *)
Lemma step_numbered (w : World) (ev : Event) :
  wellNumbered w → wellNumbered (step w ev).
Proof.
  intros Hw. unfold step. destruct ev as [p| | | |pc st p|pc r|d|d raw|d|d e];
    cbn [handle].
  - apply initializeSession_numbered.
  - rewrite startStreaming_eq.
    repeat match goal with
           | |- context [if ?b then _ else _] => destruct b
           end; exact Hw.
  - rewrite stopStreaming_eq. unfold after, assign, modify, wellNumbered.
    destruct (stream (session w)); exact Hw.
  - unfold disconnect. rewrite cleanupSession_eq. unfold wellNumbered, after.
    cbn. lia.
  - rewrite bind_run. unfold gets at 1.
    destruct (live (connectionState w !! pc) && live (Some st)); [|exact Hw].
    rewrite bind_run. unfold set_connectionState, modify.
    unfold onconnectionstatechange. rewrite bind_run. unfold gets at 1.
    cbn [connectionState]. rewrite lookup_insert_eq.
    destruct st; try exact Hw. rewrite handleConnectionFailure_eq.
    match goal with
    | |- context [if ?b then _ else _] => destruct b
    end.
    + apply initializeSession_numbered.
    + unfold wellNumbered, after. cbn. lia.
  - rewrite bind_run. unfold gets at 1.
    destruct (live (connectionState w !! pc)); [|exact Hw].
    unfold ontrack. rewrite bind_run. unfold gets at 1.
    by destruct (audioElement (session w)).
  - rewrite bind_run. unfold gets at 1.
    destruct (channelState w !! d) as [[]|]; try exact Hw.
    rewrite bind_run. unfold set_channelState, modify, onopen.
    rewrite bind_run. unfold console_write at 1, modify.
    unfold wellNumbered.
    match goal with
    | |- context [sendEvent ?ev ?w0] =>
        destruct (sendEvent_session ev w0) as (_ & -> & ->)
    end.
    exact Hw.
  - rewrite bind_run. unfold gets at 1.
    destruct (channelState w !! d) as [[]|]; try exact Hw.
    unfold wellNumbered.
    by destruct (handleDataChannelMessage_session raw w) as (_ & _ & -> & ->).
  - rewrite bind_run. unfold gets at 1.
    by destruct (channelState w !! d) as [[]|].
  - rewrite bind_run. unfold gets at 1.
    by destruct (channelState w !! d) as [[]|].
Qed.

Lemma run_snoc (evs : list Event) (ev : Event) (w : World) :
  run (evs ++ [ev]) w = step (run evs w) ev.
Proof. unfold run. by rewrite fold_left_app. Qed.

Lemma reachable_budget (w : World) : reachable w → budgetIntact w.
Proof.
  intros [evs ->]. induction evs as [|ev evs IH] using rev_ind.
  - by split.
  - rewrite run_snoc. by apply step_budget.
Qed.

Lemma reachable_numbered (w : World) : reachable w → wellNumbered w.
Proof.
  intros [evs ->]. induction evs as [|ev evs IH] using rev_ind.
  - unfold wellNumbered. cbn. lia.
  - rewrite run_snoc. by apply step_numbered.
Qed.

(** X19.  In a world the program can be in, the record [initializeSession]
    leaves is not the object it found. *)
Lemma initializeSession_new_record (p : Platform) (w : World) :
  reachable w →
  session_ref (after (initializeSession p w)) ≠ session_ref w.
Proof.
  intros Hw. apply reachable_numbered in Hw. unfold wellNumbered in Hw.
  destruct (initializeSession_spec p w) as (w1 & Hcase & Href & _).
  destruct (firstFailure p).
  - destruct Hcase as (-> & _). unfold after; cbn [snd]. lia.
  - destruct Hcase as (-> & _). unfold after; cbn [snd]. lia.
Qed.

Lemma initializeSession_retriesLogged (p : Platform) (w : World) :
  retriesLogged (after (initializeSession p w)) = retriesLogged w.
Proof.
  destruct (initializeSession_spec p w) as (w1 & Hcase & _).
  unfold retriesLogged. destruct (firstFailure p).
  - destruct Hcase as (-> & _ & Hconsole). unfold after; cbn [snd].
    by rewrite Hconsole.
  - destruct Hcase as (-> & _ & Hconsole). unfold after; cbn [snd].
    rewrite Hconsole, List.filter_app, length_app. simpl. lia.
Qed.

Lemma initializeSession_outcome (p : Platform) (w : World) :
  outcome (initializeSession p w) = initializeOutcome p.
Proof.
  destruct (initializeSession_spec p w) as (w1 & Hcase & _).
  unfold initializeOutcome. destruct (firstFailure p).
  - by destruct Hcase as (-> & _).
  - by destruct Hcase as (-> & _).
Qed.

(** X1.  The retry limit is never met.  After any history of calls and
    callbacks, one more transport failure is answered by one more initialization: a retry
    is announced, as attempt 1, and what [handleConnectionFailure] gives is
    what that initialization gives.  The count of retries never leaves 0
    between two callbacks, so the limit of 3 is never met. *)
Theorem retry_budget_never_exhausted (evs : list Event) (p : Platform) :
  retryCount (session (run evs initialWorld)) = 0
  ∧ handleConnectionFailure p (run evs initialWorld)
    = initializeSession p (announced (run evs initialWorld))
  ∧ console (announced (run evs initialWorld))
    = console (run evs initialWorld) ++ [LogRetrying 1]
  ∧ retriesLogged (after (handleConnectionFailure p (run evs initialWorld)))
    = S (retriesLogged (run evs initialWorld))
  ∧ outcome (handleConnectionFailure p (run evs initialWorld))
    = initializeOutcome p.
Proof.
  destruct (reachable_budget (run evs initialWorld)) as [Hcount Hlimit];
    [by exists evs|].
  assert (Heq : handleConnectionFailure p (run evs initialWorld)
                = initializeSession p (announced (run evs initialWorld))).
  { rewrite handleConnectionFailure_eq, Hcount, Hlimit. reflexivity. }
  split; [exact Hcount|]. split; [exact Heq|].
  split; [unfold announced; cbn [console]; by rewrite Hcount|].
  rewrite Heq. split.
  - rewrite initializeSession_retriesLogged. unfold retriesLogged, announced.
    cbn [console]. rewrite List.filter_app, length_app. simpl. lia.
  - apply initializeSession_outcome.
Qed.

(** ** The chat hook *)

(** C8.  [initializeCall] never throws.  When generating the identifier
    fails, when the permission is not granted (or cannot be queried), or
    when [initializeSession] throws, it returns false and the call state
    has the error's message ([error.message], or 'Failed to initialize
    call' for a thrown value that is no [Error]), [isConnected] false and
    [sessionId] null.  Otherwise it returns true and the call state has
    [isConnected] true, the generated identifier and no error.
    [isListening] is left as it was in both cases. *)
Theorem initializeCall_stores_failure (env : useAudioChat.CallEnv) (a : useAudioChat.App) :
  let failed (e : Thrown) :=
    outcome (useAudioChat.initializeCall env a) = Returned false
    ∧ useAudioChat.callState (after (useAudioChat.initializeCall env a))
      = {| useAudioChat.isConnected := false;
           useAudioChat.isListening :=
             useAudioChat.isListening (useAudioChat.callState a);
           useAudioChat.error := Some (messageOr "Failed to initialize call" e);
           useAudioChat.sessionId := None |} in
  match useAudioChat.randomUUID env with
  | Threw e => failed e
  | Returned id =>
      match useAudioChat.permissionsQuery env with
      | Returned useAudioChat.granted =>
          match outcome (initializeSession (useAudioChat.platform env)
                           (useAudioChat.service a)) with
          | Threw e => failed e
          | Returned _ =>
              outcome (useAudioChat.initializeCall env a) = Returned true
              ∧ useAudioChat.callState (after (useAudioChat.initializeCall env a))
                = {| useAudioChat.isConnected := true;
                     useAudioChat.isListening :=
                       useAudioChat.isListening (useAudioChat.callState a);
                     useAudioChat.error := None;
                     useAudioChat.sessionId := Some id |}
          end
      | _ => failed (JsError "Microphone permission not granted")
      end
  end.
Proof.
  cbv zeta.
  unfold useAudioChat.initializeCall, useAudioChat.checkPermissions,
    useAudioChat.call, useAudioChat.setCallState,
    useAudioChat.set_permissionStatus.
  destruct (useAudioChat.randomUUID env) as [id|e]; run_eff; [|by split].
  destruct (useAudioChat.permissionsQuery env) as [[]|e]; run_eff;
    try by split.
  destruct (initializeSession (useAudioChat.platform env) (useAudioChat.service a))
    as [[[]|e] w1]; by split.
Qed.

(** * Further properties of the session manager *)

(** ** The worlds of an initialization *)

Lemma forEach_addTrack_eq (l : list nat) : ∀ (w : World) (pc : nat),
  peerConnection (session w) = Some pc →
  forEach (λ track,
             s ← gets session;
             match peerConnection s with
             | Some pc => addTrack pc track
             | None => mret tt
             end) l w
  = (Returned tt, withSenders (attach pc l (senders w)) w).
Proof.
  induction l as [|t l IH]; intros w pc Hpc.
  - by destruct w.
  - cbn [forEach]. rewrite bind_run.
    replace ((gets session ≫= _) w)
      with (Returned tt,
            withSenders (<[pc := default [] (senders w !! pc) ++ [t]]> (senders w)) w).
    + cbn iota beta.
      by rewrite (IH (withSenders
                        (<[pc := default [] (senders w !! pc) ++ [t]]> (senders w)) w)
                     pc Hpc).
    + rewrite bind_run. unfold gets. by rewrite Hpc.
Qed.

Lemma firstFailure_exchange (p : Platform) (n : nat) :
  falsy OPENAI_API_KEY = false →
  getUserMedia p = Returned n →
  firstFailure p = exchangeFailure p.
Proof. intros Hkey Hcapture. unfold firstFailure. by rewrite Hkey, Hcapture. Qed.

Lemma negotiate_eq (p : Platform) (w : World) :
  negotiate p w =
  if falsy OPENAI_API_KEY then
    (Threw (JsError "OpenAI API key is not configured"), w)
  else
    match getUserMedia p with
    | Threw e =>
        (Threw (JsError ("Failed to access microphone: "
                         +:+ messageOr "Unknown error" e)), w)
    | Returned n =>
        match exchangeFailure p with
        | Some e => (Threw e, built n w)
        | None => (Returned tt, finished n w)
        end
    end.
Proof.
  unfold negotiate, exchangeFailure.
  destruct p as [gum co sld fe srd]; cbn [getUserMedia createOffer
    setLocalDescription fetch setRemoteDescription].
  unfold setupMediaStream, createPeerConnection, createAndSendOffer.
  destruct (falsy OPENAI_API_KEY); [reflexivity|].
  destruct gum as [n|e]; cbn [getUserMedia]; [|reflexivity].
  run_eff. unfold create, assign, set_connectionState. run_eff.
  rewrite (forEach_addTrack_eq _ _ (S (n + next_id w))); [|reflexivity].
  run_eff. unfold set_channelState. run_eff.
  destruct co as [sdp|e]; [|reflexivity].
  destruct sld as [[]|e]; [|reflexivity].
  destruct fe as [[o t]|e]; [|reflexivity].
  destruct o, t as [t|e]; run_eff; try reflexivity.
  destruct srd as [[]|e]; reflexivity.
Qed.

Lemma initializeSession_initialized (p : Platform) (w : World) :
  initializeSession p w = initialized p w.
Proof.
  rewrite initializeSession_eq. unfold try_catch, initialized.
  rewrite negotiate_eq.
  destruct (falsy OPENAI_API_KEY).
  { by rewrite bind_run, cleanupSession_eq. }
  destruct (getUserMedia p) as [n|e].
  2:{ by rewrite bind_run, cleanupSession_eq. }
  destruct (exchangeFailure p) as [e|]; [|reflexivity].
  by rewrite bind_run, cleanupSession_eq.
Qed.

(** ** One session at a time *)

Lemma attach_cons (pc t : nat) (l : list nat) (s : gmap nat (list nat)) :
  attach pc (t :: l) s
  = attach pc l (<[pc := default [] (s !! pc) ++ [t]]> s).
Proof. reflexivity. Qed.

Lemma attach_lookup_other (pc k : nat) (l : list nat) : ∀ s,
  k ≠ pc → attach pc l s !! k = s !! k.
Proof.
  induction l as [|t l IH]; intros s Hk; [reflexivity|].
  rewrite attach_cons, IH by done. by rewrite lookup_insert_ne.
Qed.

Lemma attach_lookup (pc : nat) (l : list nat) : ∀ s,
  default [] (attach pc l s !! pc) = default [] (s !! pc) ++ l.
Proof.
  induction l as [|t l IH]; intros s.
  - cbn. by rewrite app_nil_r.
  - rewrite attach_cons, IH, lookup_insert_eq.
    cbn. by rewrite <- app_assoc.
Qed.

Lemma attach_is_Some (pc k : nat) (l : list nat) (s : gmap nat (list nat)) :
  is_Some (attach pc l s !! k) → k = pc ∨ is_Some (s !! k).
Proof.
  destruct (decide (k = pc)) as [->|Hk]; [by left|].
  rewrite attach_lookup_other by done. by right.
Qed.

Lemma allClosed_singleSession (w : World) : allClosed w → singleSession w.
Proof. intros [Hpc Hd]. split; intros k st Hk; left; eauto. Qed.

Lemma released_allClosed (w : World) : singleSession w → allClosed (released w).
Proof.
  intros [Hpc Hd]. unfold released. split; intros k st; cbn.
  - destruct (peerConnection (session w)) as [o|] eqn:Ho.
    + rewrite lookup_insert. case_decide; [congruence|].
      intros Hk. destruct (Hpc k st Hk) as [?|?]; congruence.
    + intros Hk. destruct (Hpc k st Hk) as [?|?]; congruence.
  - destruct (dataChannel (session w)) as [o|] eqn:Ho.
    + rewrite lookup_insert. case_decide; [congruence|].
      intros Hk. destruct (Hd k st Hk) as [?|?]; congruence.
    + intros Hk. destruct (Hd k st Hk) as [?|?]; congruence.
Qed.

Lemma built_singleSession (n : nat) (w : World) :
  allClosed w → singleSession (built n w).
Proof.
  intros [Hpc Hd]. unfold built. split; intros k st; cbn;
    rewrite lookup_insert; case_decide; subst; eauto.
Qed.

Lemma finished_singleSession (n : nat) (w : World) :
  allClosed w → singleSession (finished n w).
Proof.
  intros [Hpc Hd]. unfold finished, built. split; intros k st; cbn;
    rewrite lookup_insert; case_decide; subst; eauto.
Qed.

Lemma initialized_singleSession (p : Platform) (w : World) :
  singleSession w → singleSession (initialized p w).2.
Proof.
  intros Hw. apply released_allClosed in Hw. unfold initialized.
  destruct (falsy OPENAI_API_KEY).
  { by apply allClosed_singleSession, released_allClosed, allClosed_singleSession. }
  destruct (getUserMedia p) as [n|e].
  2:{ by apply allClosed_singleSession, released_allClosed, allClosed_singleSession. }
  destruct (exchangeFailure p).
  - by apply allClosed_singleSession, released_allClosed, built_singleSession.
  - by apply finished_singleSession.
Qed.

Lemma released_sendersNumbered (w : World) :
  sendersNumbered w → sendersNumbered (released w).
Proof. intros Hw k Hk. apply Hw in Hk. cbn. lia. Qed.

Lemma built_sendersNumbered (n : nat) (w : World) :
  sendersNumbered w → sendersNumbered (built n w).
Proof.
  intros Hw k Hk. cbn in Hk. apply attach_is_Some in Hk as [->|Hk].
  - cbn. lia.
  - apply Hw in Hk. cbn. lia.
Qed.

Lemma initialized_sendersNumbered (p : Platform) (w : World) :
  sendersNumbered w → sendersNumbered (initialized p w).2.
Proof.
  intros Hw. apply released_sendersNumbered in Hw. unfold initialized.
  destruct (falsy OPENAI_API_KEY); [by apply released_sendersNumbered|].
  destruct (getUserMedia p) as [n|e]; [|by apply released_sendersNumbered].
  destruct (exchangeFailure p).
  - by apply released_sendersNumbered, built_sendersNumbered.
  - by apply (built_sendersNumbered n).
Qed.

(** The two invariants together. *)
Lemma initialized_coherent (p : Platform) (w : World) :
  coherent w → coherent (initialized p w).2.
Proof.
  intros [Hs Hn].
  split; [by apply initialized_singleSession|by apply initialized_sendersNumbered].
Qed.

Lemma released_coherent (w : World) : coherent w → coherent (released w).
Proof.
  intros [Hs Hn]. split.
  - by apply allClosed_singleSession, released_allClosed.
  - by apply released_sendersNumbered.
Qed.

Lemma step_coherent (w : World) (ev : Event) :
  coherent w → coherent (step w ev).
Proof.
  intros Hw. pose proof Hw as [Hs Hn]. unfold step.
  destruct ev as [p| | | |pc st p|pc r|d|d raw|d|d e]; cbn [handle].
  - rewrite initializeSession_initialized. by apply initialized_coherent.
  - rewrite startStreaming_eq.
    repeat match goal with
           | |- context [if ?b then _ else _] => destruct b
           end; exact Hw.
  - rewrite stopStreaming_eq. unfold after, assign, modify.
    destruct (stream (session w)); exact Hw.
  - unfold disconnect. rewrite cleanupSession_eq. by apply released_coherent.
  - rewrite bind_run. unfold gets at 1.
    destruct (live (connectionState w !! pc)) eqn:Hlive; cbn [andb]; [|exact Hw].
    destruct (live (Some st)) eqn:Hst; [|exact Hw].
    rewrite bind_run. unfold set_connectionState, modify.
    unfold onconnectionstatechange. rewrite bind_run. unfold gets at 1.
    cbn [connectionState]. rewrite lookup_insert_eq.
    match goal with
    | |- coherent (after (_ ?w0)) => assert (Hw' : coherent w0)
    end.
    { split; [|exact Hn].
      destruct Hs as [Hpc Hd]. split; intros k s0; cbn; [|by apply Hd].
      rewrite lookup_insert. case_decide; [subst k|by apply Hpc].
      intros _. right.
      destruct (connectionState w !! pc) as [cur|] eqn:Hcur; [|done].
      destruct (Hpc pc cur Hcur) as [->|Hk]; [done|exact Hk]. }
    destruct st; try exact Hw'.
    rewrite handleConnectionFailure_eq.
    match goal with
    | |- context [if ?b then _ else _] => destruct b
    end.
    + rewrite initializeSession_initialized. apply initialized_coherent.
      exact Hw'.
    + by apply released_coherent.
  - rewrite bind_run. unfold gets at 1.
    destruct (live (connectionState w !! pc)); [|exact Hw].
    unfold ontrack. rewrite bind_run. unfold gets at 1.
    destruct (audioElement (session w)); exact Hw.
  - rewrite bind_run. unfold gets at 1.
    destruct (channelState w !! d) as [[]|] eqn:Hcur; try exact Hw.
    rewrite bind_run. unfold set_channelState, modify, onopen.
    rewrite bind_run. unfold console_write at 1, modify. unfold sendEvent.
    run_eff.
    destruct Hs as [Hpc Hd]. destruct (Hd d _ Hcur) as [?|Hmine]; [done|].
    rewrite Hmine. cbn. rewrite lookup_insert_eq. cbn.
    split; [split|exact Hn]; intros k s0; cbn; [by apply Hpc|].
    rewrite lookup_insert. case_decide; [subst; by right|by apply Hd].
  - rewrite bind_run. unfold gets at 1.
    destruct (channelState w !! d) as [[]|]; try exact Hw.
    destruct (JSON_parse raw) as [data|e] eqn:Hparse.
    + rewrite (handleDataChannelMessage_parsed _ _ _ Hparse).
      destruct data;
        repeat match goal with
               | |- context [if ?b then _ else _] => destruct b
               end; exact Hw.
    + rewrite (handleDataChannelMessage_malformed _ _ _ Hparse). exact Hw.
  - rewrite bind_run. unfold gets at 1.
    destruct (channelState w !! d) as [cur|] eqn:Hcur; [|exact Hw].
    unfold onclose, set_channelState, console_write, assign. run_eff.
    destruct Hs as [Hpc Hd].
    split; [split|exact Hn]; intros k s0; cbn; [by apply Hpc|].
    rewrite lookup_insert. case_decide; [intros [= <-]; by left|by apply Hd].
  - rewrite bind_run. unfold gets at 1.
    destruct (channelState w !! d) as [[]|]; exact Hw.
Qed.

Lemma reachable_coherent (w : World) : reachable w → coherent w.
Proof.
  intros [evs ->]. induction evs as [|ev evs IH] using rev_ind.
  - split; [split|]; intros k; cbn; by rewrite ?lookup_empty; intros [].
  - rewrite run_snoc. by apply step_coherent.
Qed.

(** ** Consequences *)

Lemma initializeSession_returned (p : Platform) (w : World) :
  outcome (initializeSession p w) = Returned tt →
  ∃ n, falsy OPENAI_API_KEY = false
       ∧ getUserMedia p = Returned n
       ∧ exchangeFailure p = None
       ∧ initializeSession p w = (Returned tt, finished n (released w)).
Proof.
  rewrite initializeSession_initialized. unfold initialized.
  destruct (falsy OPENAI_API_KEY); [discriminate|].
  destruct (getUserMedia p) as [n|e]; [|discriminate].
  destruct (exchangeFailure p); [discriminate|]. intros _. by exists n.
Qed.

(** X2.  [stopStreaming] is idempotent: a second call changes nothing
    at all. *)
Theorem stopStreaming_idempotent (w : World) :
  after (stopStreaming (after (stopStreaming w))) = after (stopStreaming w).
Proof.
  rewrite (stopStreaming_eq w). unfold after at 2 3, assign, modify. cbn [snd].
  rewrite stopStreaming_eq. unfold after, assign, modify.
  by destruct (stream (session w)).
Qed.

(** X3.  A second [disconnect] finds nothing to release: it returns, and
    no track, channel, connection or audio element changes state; the
    session is again the all-null record. *)
Theorem disconnect_twice (w : World) :
  outcome (disconnect (after (disconnect w))) = Returned tt
  ∧ session (after (disconnect (after (disconnect w)))) = session (after (disconnect w))
  ∧ stoppedTracks (after (disconnect (after (disconnect w))))
    = stoppedTracks (after (disconnect w))
  ∧ channelState (after (disconnect (after (disconnect w))))
    = channelState (after (disconnect w))
  ∧ connectionState (after (disconnect (after (disconnect w))))
    = connectionState (after (disconnect w))
  ∧ srcObject (after (disconnect (after (disconnect w))))
    = srcObject (after (disconnect w)).
Proof.
  unfold disconnect. rewrite (cleanupSession_eq w). unfold after at 2 4 6 8 10 12.
  cbn [snd]. rewrite cleanupSession_eq. repeat split.
Qed.

(** X4.  After an [initializeSession] that returned, [startStreaming]
    returns too: it logs 'Audio streaming active' and changes nothing
    else. *)
Theorem startStreaming_after_initialize (p : Platform) (w : World) :
  outcome (initializeSession p w) = Returned tt →
  outcome (startStreaming (after (initializeSession p w))) = Returned tt
  ∧ console (after (startStreaming (after (initializeSession p w))))
    = console w ++ [LogText "WebRTC connection established successfully";
                    LogText "Audio streaming active"]
  ∧ session (after (startStreaming (after (initializeSession p w))))
    = session (after (initializeSession p w)).
Proof.
  intros Hok. destruct (initializeSession_returned p w Hok) as (n & _ & _ & _ & ->).
  unfold after at 2 4 5 6. cbn [snd]. rewrite startStreaming_eq.
  cbn. rewrite <- app_assoc. repeat split.
Qed.

(** X5.  [stopStreaming] and [disconnect] both end the streaming for
    good: whatever the session was, [startStreaming] after either of them
    throws 'Session not initialized'. *)
Theorem startStreaming_after_teardown (w : World) :
  outcome (startStreaming (after (stopStreaming w)))
  = Threw (JsError "Session not initialized")
  ∧ outcome (startStreaming (after (disconnect w)))
    = Threw (JsError "Session not initialized").
Proof.
  split.
  - rewrite stopStreaming_eq, startStreaming_eq. unfold after, assign, modify.
    by destruct (stream (session w)).
  - unfold disconnect. by rewrite cleanupSession_eq, startStreaming_eq.
Qed.

Lemma channel_opened_eq (w : World) (d : nat) :
  dataChannel (session w) = Some d →
  channelState w !! d = Some ChConnecting →
  step w (ChannelOpened d)
  = after (channel_send d responseCreate
             (after (console_write (LogText "Data channel opened")
                       (after (set_channelState d ChOpen w))))).
Proof.
  intros Hd Hst. unfold step. cbn [handle]. rewrite bind_run. unfold gets at 1.
  rewrite Hst. rewrite bind_run. unfold set_channelState, modify, onopen.
  rewrite bind_run. unfold console_write at 1, modify. unfold sendEvent.
  run_eff. rewrite Hd. cbn. by rewrite lookup_insert_eq.
Qed.

(** X6.  When the data channel of a session just initialized opens, the
    manager sends the [response.create] event over that channel, once,
    and logs 'Data channel opened'. *)
Theorem configuration_sent_on_open (p : Platform) (w : World) :
  outcome (initializeSession p w) = Returned tt →
  ∃ d, dataChannel (session (after (initializeSession p w))) = Some d
       ∧ sent (step (after (initializeSession p w)) (ChannelOpened d))
         = sent w ++ [(d, responseCreate)]
       ∧ channelState (step (after (initializeSession p w)) (ChannelOpened d)) !! d
         = Some ChOpen
       ∧ console (step (after (initializeSession p w)) (ChannelOpened d))
         = console (after (initializeSession p w)) ++ [LogText "Data channel opened"].
Proof.
  intros Hok. destruct (initializeSession_returned p w Hok) as (n & _ & _ & _ & ->).
  unfold after at 1 2 3 4 5. cbn [snd]. eexists. split; [reflexivity|].
  rewrite channel_opened_eq; [|reflexivity|apply lookup_insert_eq].
  cbn. split; [reflexivity|]. split; [apply lookup_insert_eq|reflexivity].
Qed.

Lemma channel_closed_eq (w : World) (d : nat) :
  is_Some (channelState w !! d) →
  step w (ChannelClosed d)
  = after (assign (set_isInitialized false)
             (after (console_write (LogText "Data channel closed")
                       (after (set_channelState d ChClosed w))))).
Proof.
  intros [cur Hcur]. unfold step. cbn [handle]. rewrite bind_run. unfold gets at 1.
  by rewrite Hcur.
Qed.

(** X7.  The close listener writes to whatever session is current.  When
    a session is initialized a second time, the channel of the first
    session is closed by the teardown; once its close event arrives, the
    new session, whose handles are all in place, has [isInitialized] false
    and [startStreaming] throws. *)
Theorem stale_close_event_uninitializes (p p' : Platform) (w : World) :
  outcome (initializeSession p w) = Returned tt →
  outcome (initializeSession p' (after (initializeSession p w))) = Returned tt →
  ∃ d,
    dataChannel (session (after (initializeSession p w))) = Some d
    ∧ dataChannel (session (after (initializeSession p' (after (initializeSession p w)))))
      ≠ Some d
    ∧ isInitialized
        (session (after (initializeSession p' (after (initializeSession p w))))) = true
    ∧ isInitialized
        (session (step (after (initializeSession p' (after (initializeSession p w))))
                    (ChannelClosed d))) = false
    ∧ peerConnection
        (session (step (after (initializeSession p' (after (initializeSession p w))))
                    (ChannelClosed d)))
      = peerConnection
          (session (after (initializeSession p' (after (initializeSession p w)))))
    ∧ dataChannel
        (session (step (after (initializeSession p' (after (initializeSession p w))))
                    (ChannelClosed d)))
      = dataChannel
          (session (after (initializeSession p' (after (initializeSession p w)))))
    ∧ outcome
        (startStreaming
           (step (after (initializeSession p' (after (initializeSession p w))))
              (ChannelClosed d)))
      = Threw (JsError "Session not initialized").
Proof.
  intros Hok Hok'.
  destruct (initializeSession_returned p w Hok) as (n & _ & _ & _ & Heq).
  assert (Hw1 : after (initializeSession p w) = finished n (released w))
    by (by rewrite Heq).
  rewrite Hw1 in *. clear Heq Hw1 Hok.
  destruct (initializeSession_returned p' _ Hok') as (n' & _ & _ & _ & Heq').
  assert (Hw2 : after (initializeSession p' (finished n (released w)))
                = finished n' (released (finished n (released w))))
    by (by rewrite Heq').
  rewrite Hw2. clear Heq' Hw2 Hok'.
  exists (S (S (S (n + S (next_id w))))).
  split; [reflexivity|].
  split; [cbn; intros [= Hd]; lia|].
  split; [reflexivity|].
  rewrite channel_closed_eq.
  - repeat split.
  - exists ChClosed. cbn. rewrite lookup_insert_ne by lia. apply lookup_insert_eq.
Qed.



(** X10.  When [initializeSession] fails after the capture, in the
    offer/answer exchange, what the attempt had created is released:
    the captured tracks are stopped, the new connection and the new
    channel are closed, the audio element is detached. *)
Theorem failed_exchange_releases_attempt (p : Platform) (w : World) (n : nat) (e : Thrown) :
  falsy OPENAI_API_KEY = false →
  getUserMedia p = Returned n →
  exchangeFailure p = Some e →
  outcome (initializeSession p w) = Threw e
  ∧ tracksStopped (stream (establishedSession (S (next_id w)) n 3))
      (after (initializeSession p w))
  ∧ connectionClosed (peerConnection (establishedSession (S (next_id w)) n 3))
      (after (initializeSession p w))
  ∧ channelClosed (dataChannel (establishedSession (S (next_id w)) n 3))
      (after (initializeSession p w))
  ∧ audioDetached (audioElement (establishedSession (S (next_id w)) n 3))
      (after (initializeSession p w))
  ∧ session (after (initializeSession p w)) = emptySession.
Proof.
  intros Hkey Hcapture Hexchange. rewrite initializeSession_initialized.
  unfold initialized. rewrite Hkey, Hcapture, Hexchange.
  unfold outcome, after. cbn [fst snd].
  split; [reflexivity|].
  split; [apply (released_tracks (built n (released w)))|].
  split; [apply (released_connection (built n (released w)))|].
  split; [apply (released_channel (built n (released w)))|].
  split; [apply (released_audio (built n (released w)))|reflexivity].
Qed.

(** X11.  In a state the program can be in, an [initializeSession] that
    returns has given the new connection exactly the tracks of the
    captured stream, in the stream's order. *)
Theorem initialize_attaches_tracks (p : Platform) (w : World) :
  reachable w →
  outcome (initializeSession p w) = Returned tt →
  ∃ pc ms,
    peerConnection (session (after (initializeSession p w))) = Some pc
    ∧ stream (session (after (initializeSession p w))) = Some ms
    ∧ default [] (senders (after (initializeSession p w)) !! pc) = stream_tracks ms.
Proof.
  intros Hw Hok. destruct (reachable_coherent w Hw) as [_ Hn].
  destruct (initializeSession_returned p w Hok) as (n & _ & _ & _ & ->).
  unfold after. cbn [snd]. eexists _, _. split; [reflexivity|].
  split; [reflexivity|]. cbn. rewrite attach_lookup.
  destruct (senders w !! S (n + S (next_id w))) as [l|] eqn:Hl; [|reflexivity].
  assert (Hlt : S (n + S (next_id w)) < next_id w) by (apply Hn; eauto). lia.
Qed.

(** X12.  A change of the transport's state starts a retry exactly when
    the connection is not closed and the new state is 'failed'; any other
    change leaves session and console as they were. *)
Theorem retry_only_on_failed (evs : list Event) (pc : nat) (st : ConnectionState)
    (p : Platform) :
  retriesLogged (step (run evs initialWorld) (ConnectionStateChange pc st p))
  = retriesLogged (run evs initialWorld)
    + (if live (connectionState (run evs initialWorld) !! pc) && isFailed st
       then 1 else 0)
  ∧ (live (connectionState (run evs initialWorld) !! pc) && isFailed st = false →
     session (step (run evs initialWorld) (ConnectionStateChange pc st p))
     = session (run evs initialWorld)
     ∧ console (step (run evs initialWorld) (ConnectionStateChange pc st p))
       = console (run evs initialWorld)).
Proof.
  set (w := run evs initialWorld).
  assert (Hbudget : budgetIntact w) by (apply reachable_budget; by exists evs).
  assert (Hstep :
    step w (ConnectionStateChange pc st p)
    = if live (connectionState w !! pc) && live (Some st) then
        if isFailed st then
          after (handleConnectionFailure p (after (set_connectionState pc st w)))
        else after (set_connectionState pc st w)
      else w).
  { unfold step. cbn [handle]. rewrite bind_run. unfold gets at 1.
    destruct (live (connectionState w !! pc) && live (Some st)); [|reflexivity].
    rewrite bind_run. unfold set_connectionState at 1, modify.
    unfold onconnectionstatechange. rewrite bind_run. unfold gets at 1.
    cbn [connectionState]. rewrite lookup_insert_eq. by destruct st. }
  rewrite Hstep. destruct (live (connectionState w !! pc)); cbn [andb];
    [|split; [lia|done]].
  destruct st; cbn [live isFailed]; try (split; [unfold retriesLogged; cbn; lia|done]).
  split; [|discriminate].
  rewrite handleConnectionFailure_eq. destruct Hbudget as [Hcount Hlimit].
  unfold after at 2 3, set_connectionState, modify. cbn [snd session].
  rewrite Hcount, Hlimit. cbn [Nat.ltb Nat.leb].
  rewrite initializeSession_retriesLogged. unfold retriesLogged, announced.
  cbn [console]. rewrite List.filter_app, length_app. cbn. lia.
Qed.

(** X18.  The remote stream [ontrack] attaches to the session's audio
    element is detached again by [disconnect]. *)
Theorem remote_stream_attached_then_detached (w : World) (remote a : nat) :
  audioElement (session w) = Some a →
  outcome (ontrack remote w) = Returned tt
  ∧ srcObject (after (ontrack remote w)) !! a = Some remote
  ∧ srcObject (after (disconnect (after (ontrack remote w)))) !! a = None.
Proof.
  intros Ha.
  assert (Heq : ontrack remote w
                = (Returned tt, after (set_srcObject a (Some remote) w))).
  { unfold ontrack. rewrite bind_run. unfold gets at 1. by rewrite Ha. }
  rewrite Heq. unfold set_srcObject, modify, outcome, after. cbn [fst snd].
  split; [reflexivity|]. split; [apply lookup_insert_eq|].
  unfold disconnect. rewrite cleanupSession_eq. cbn. rewrite Ha.
  apply lookup_delete_eq.
Qed.

(** X20.  Without a credential [initializeSession] is two teardowns and a
    throw: the session it finds is released all the same, nothing is
    asked of the platform and nothing created. *)
Theorem initializeSession_without_key (p : Platform) (w : World) :
  falsy OPENAI_API_KEY = true →
  initializeSession p w
  = (Threw (JsError "OpenAI API key is not configured"),
     after (cleanupSession (after (cleanupSession w)))).
Proof.
  intros Hkey. rewrite initializeSession_initialized. unfold initialized.
  rewrite Hkey. by rewrite !cleanupSession_eq.
Qed.

(** ** Further properties of the hook *)

(** X13.  [startListening] never throws.  It ends connected and
    listening, with the generated identifier and no error, exactly when
    the identifier was generated, the permission is granted and
    [initializeSession] returned; otherwise the call state is the one
    [initializeCall] leaves for the error, with [isListening] as it was. *)
Theorem startListening_connects_or_records
    (env : useAudioChat.CallEnv) (a : useAudioChat.App) :
  outcome (useAudioChat.startListening env a) = Returned tt
  ∧ useAudioChat.callState (after (useAudioChat.startListening env a))
    = match useAudioChat.randomUUID env with
      | Threw e => failedCall (useAudioChat.callState a) e
      | Returned id =>
          match useAudioChat.permissionsQuery env with
          | Returned useAudioChat.granted =>
              match outcome (initializeSession (useAudioChat.platform env)
                               (useAudioChat.service a)) with
              | Threw e => failedCall (useAudioChat.callState a) e
              | Returned _ =>
                  {| useAudioChat.isConnected := true;
                     useAudioChat.isListening := true;
                     useAudioChat.error := None;
                     useAudioChat.sessionId := Some id |}
              end
          | _ => failedCall (useAudioChat.callState a)
                   (JsError "Microphone permission not granted")
          end
      end.
Proof.
  unfold useAudioChat.startListening, useAudioChat.initializeCall,
    useAudioChat.checkPermissions, useAudioChat.call, useAudioChat.setCallState,
    useAudioChat.set_permissionStatus, failedCall.
  destruct (useAudioChat.randomUUID env) as [id|e]; run_eff; [|by split].
  destruct (useAudioChat.permissionsQuery env) as [[]|e]; run_eff;
    try by split.
  rewrite initializeSession_initialized. unfold initialized.
  destruct (falsy OPENAI_API_KEY); [by split|].
  destruct (getUserMedia (useAudioChat.platform env)) as [n|e]; [|by split].
  destruct (exchangeFailure (useAudioChat.platform env)); by split.
Qed.

(** X14.  [stopListening] never throws and never records an error: it
    sets [isListening] to false and [error] to null, releases the stream
    and clears the session's [isInitialized], and leaves [isConnected],
    [sessionId] and the session's connection and channel as they were. *)
Theorem stopListening_keeps_connection (a : useAudioChat.App) :
  outcome (useAudioChat.stopListening a) = Returned tt
  ∧ useAudioChat.callState (after (useAudioChat.stopListening a))
    = {| useAudioChat.isConnected := useAudioChat.isConnected (useAudioChat.callState a);
         useAudioChat.isListening := false;
         useAudioChat.error := None;
         useAudioChat.sessionId := useAudioChat.sessionId (useAudioChat.callState a) |}
  ∧ useAudioChat.service (after (useAudioChat.stopListening a))
    = after (stopStreaming (useAudioChat.service a))
  ∧ connectionState (useAudioChat.service (after (useAudioChat.stopListening a)))
    = connectionState (useAudioChat.service a)
  ∧ channelState (useAudioChat.service (after (useAudioChat.stopListening a)))
    = channelState (useAudioChat.service a).
Proof.
  unfold useAudioChat.stopListening, useAudioChat.call, useAudioChat.setCallState.
  run_eff. rewrite stopStreaming_eq. cbn [fst snd].
  repeat split; unfold assign, modify;
    by destruct (stream (session (useAudioChat.service a))).
Qed.

(** X15.  The hook's [disconnect] never throws and resets the call state
    to disconnected, not listening, no error, no identifier, whatever it
    was; the session manager is left as its own [disconnect] leaves it. *)
Theorem hook_disconnect_resets (a : useAudioChat.App) :
  outcome (useAudioChat.disconnect a) = Returned tt
  ∧ useAudioChat.callState (after (useAudioChat.disconnect a))
    = useAudioChat.callState useAudioChat.initialApp
  ∧ useAudioChat.service (after (useAudioChat.disconnect a))
    = after (disconnect (useAudioChat.service a))
  ∧ session (useAudioChat.service (after (useAudioChat.disconnect a))) = emptySession.
Proof.
  unfold useAudioChat.disconnect, useAudioChat.call, useAudioChat.setCallState,
    disconnect.
  run_eff. rewrite cleanupSession_eq. cbn [fst snd]. repeat split.
Qed.

(** X16.  The permission is checked before anything else is done to the
    session manager: when the query does not answer 'granted',
    [initializeCall] and [startListening] leave the session manager
    untouched (no teardown of a running session, no capture). *)
Theorem no_permission_no_initialization
    (env : useAudioChat.CallEnv) (a : useAudioChat.App) :
  useAudioChat.permissionsQuery env ≠ Returned useAudioChat.granted →
  useAudioChat.service (after (useAudioChat.initializeCall env a))
  = useAudioChat.service a
  ∧ useAudioChat.service (after (useAudioChat.startListening env a))
    = useAudioChat.service a.
Proof.
  intros Hquery.
  unfold useAudioChat.startListening, useAudioChat.initializeCall,
    useAudioChat.checkPermissions, useAudioChat.call, useAudioChat.setCallState,
    useAudioChat.set_permissionStatus.
  destruct (useAudioChat.randomUUID env) as [id|e]; run_eff; [|by split].
  destruct (useAudioChat.permissionsQuery env) as [[]|e]; run_eff;
    by split.
Qed.

(** X17.  Pressing the button on an idle screen, with everything
    succeeding, and pressing it again: the second press only stops the
    stream.  The screen then shows not listening but still connected, with
    the identifier kept, while the session is no longer initialized and
    its peer connection has not been closed. *)
Theorem toggle_twice_stays_connected
    (env env' : useAudioChat.CallEnv) (a : useAudioChat.App) (id : string) :
  useAudioChat.isListening (useAudioChat.callState a) = false →
  useAudioChat.randomUUID env = Returned id →
  useAudioChat.permissionsQuery env = Returned useAudioChat.granted →
  outcome (initializeSession (useAudioChat.platform env) (useAudioChat.service a))
  = Returned tt →
  outcome (App.toggleMicrophone env' (after (App.toggleMicrophone env a)))
  = Returned tt
  ∧ useAudioChat.callState
      (after (App.toggleMicrophone env' (after (App.toggleMicrophone env a))))
    = {| useAudioChat.isConnected := true; useAudioChat.isListening := false;
         useAudioChat.error := None; useAudioChat.sessionId := Some id |}
  ∧ isInitialized
      (session (useAudioChat.service
         (after (App.toggleMicrophone env' (after (App.toggleMicrophone env a))))))
    = false
  ∧ stream
      (session (useAudioChat.service
         (after (App.toggleMicrophone env' (after (App.toggleMicrophone env a))))))
    = None
  ∧ ∃ pc,
      peerConnection
        (session (useAudioChat.service
           (after (App.toggleMicrophone env' (after (App.toggleMicrophone env a))))))
      = Some pc
      ∧ connectionState
          (useAudioChat.service
             (after (App.toggleMicrophone env' (after (App.toggleMicrophone env a)))))
        !! pc = Some PcNew.
Proof.
  intros Hidle Hid Hquery Hok.
  destruct (initializeSession_returned _ _ Hok) as (n & _ & _ & _ & Heq).
  assert (Hfirst :
    App.toggleMicrophone env a
    = (Returned tt,
       {| useAudioChat.callState :=
            {| useAudioChat.isConnected := true; useAudioChat.isListening := true;
               useAudioChat.error := None; useAudioChat.sessionId := Some id |};
          useAudioChat.permissionStatus := Some useAudioChat.granted;
          useAudioChat.service :=
            after (console_write (LogText "Audio streaming active")
                     (finished n (released (useAudioChat.service a)))) |})).
  { unfold App.toggleMicrophone. rewrite bind_run. unfold gets at 1.
    rewrite Hidle.
    unfold useAudioChat.startListening, useAudioChat.initializeCall,
      useAudioChat.checkPermissions, useAudioChat.call, useAudioChat.setCallState,
      useAudioChat.set_permissionStatus.
    rewrite Hid, Hquery. run_eff. rewrite Heq. reflexivity. }
  rewrite Hfirst.
  assert (Hsecond :
    ∀ b, useAudioChat.isListening (useAudioChat.callState b) = true →
         App.toggleMicrophone env' b = useAudioChat.stopListening b).
  { intros b Hb. unfold App.toggleMicrophone. rewrite bind_run. unfold gets at 1.
    by rewrite Hb. }
  change (after (Returned tt, ?b)) with b. rewrite Hsecond by reflexivity.
  unfold useAudioChat.stopListening, useAudioChat.call, useAudioChat.setCallState.
  run_eff. rewrite stopStreaming_eq. cbn.
  repeat split. eexists. split; [reflexivity|]. apply lookup_insert_eq.
Qed.

End Properties.

(** * The program on the sample host *)

Section Sample.
Import audioService.
#[local] Existing Instance sampleHost.

Example initialize_on_working_platform :
  outcome (initializeSession working initialWorld) = Returned tt
  ∧ session (after (initializeSession working initialWorld))
    = {| peerConnection := Some 4; dataChannel := Some 6;
         stream := Some {| stream_id := 2; stream_tracks := [3] |};
         audioElement := Some 5; isInitialized := true;
         retryCount := 0; maxRetries := 3 |}
  ∧ session_ref (after (initializeSession working initialWorld)) = 1.
Proof. by vm_compute. Qed.

Example disconnect_after_initialize :
  3 ∈ stoppedTracks (run [CallInitializeSession working; CallDisconnect] initialWorld)
  ∧ channelState (run [CallInitializeSession working; CallDisconnect] initialWorld) !! 6
    = Some ChClosed
  ∧ connectionState (run [CallInitializeSession working; CallDisconnect] initialWorld) !! 4
    = Some PcClosed
  ∧ session (run [CallInitializeSession working; CallDisconnect] initialWorld)
    = emptySession.
Proof. split; [by vm_compute|]. by vm_compute. Qed.

(** C1, at four consecutive transport failures.  Each of the four
    failures is answered by a retry, each announced as attempt 1; after
    the fourth the session is initialized again on a new connection whose
    transport is live, and no terminal error was thrown. *)
Theorem four_failures_four_retries :
  retriesLogged (run fourFailures initialWorld) = 4
  ∧ List.filter isRetry (console (run fourFailures initialWorld))
    = [LogRetrying 1; LogRetrying 1; LogRetrying 1; LogRetrying 1]
  ∧ outcome (handle (ConnectionStateChange 22 PcFailed working)
               (run (take 4 fourFailures) initialWorld)) = Returned tt
  ∧ isInitialized (session (run fourFailures initialWorld)) = true
  ∧ peerConnection (session (run fourFailures initialWorld)) = Some 28
  ∧ connectionState (run fourFailures initialWorld) !! 28 = Some PcNew
  ∧ retryCount (session (run fourFailures initialWorld)) = 0.
Proof. by vm_compute. Qed.

(** [stopStreaming] and [disconnect] on the initial session, which is not
    initialized: both return normally, so neither guards on the flag. *)
Lemma stop_and_disconnect_do_not_guard :
  isInitialized (session initialWorld) = false
  ∧ outcome (stopStreaming initialWorld) = Returned tt
  ∧ outcome (disconnect initialWorld) = Returned tt
  ∧ ¬ guardsOnFlag stopStreaming
  ∧ ¬ guardsOnFlag disconnect.
Proof.
  split; [reflexivity|]. split; [reflexivity|]. split; [reflexivity|].
  split; intros Hguard;
    destruct (Hguard initialWorld eq_refl) as [e He]; discriminate He.
Qed.

Lemma only_startStreaming_guards_witness :
  isInitialized (session initialWorld) = false
  ∧ outcome (startStreaming initialWorld) = Threw (JsError "Session not initialized")
  ∧ outcome (stopStreaming initialWorld) = Returned tt
  ∧ outcome (disconnect initialWorld) = Returned tt.
Proof.
  destruct (only_startStreaming_guards initialWorld) as (Hstart & Hstop & Hdisconnect).
  split; [reflexivity|].
  split; [apply Hstart; reflexivity|].
  split; assumption.
Defined.

Lemma initializeSession_failure_witness :
  outcome (initializeSession noMicrophone initialWorld)
  = Threw (JsError "Failed to access microphone: Permission denied")
  ∧ firstFailure noMicrophone
    = Some (JsError "Failed to access microphone: Permission denied")
  ∧ peerConnection (session (after (initializeSession noMicrophone initialWorld))) = None
  ∧ dataChannel (session (after (initializeSession noMicrophone initialWorld))) = None
  ∧ stream (session (after (initializeSession noMicrophone initialWorld))) = None
  ∧ audioElement (session (after (initializeSession noMicrophone initialWorld))) = None
  ∧ isInitialized (session (after (initializeSession noMicrophone initialWorld))) = false
  ∧ retryCount (session (after (initializeSession noMicrophone initialWorld))) = 0.
Proof.
  split; [vm_compute; reflexivity|].
  apply (initializeSession_failure_tears_down noMicrophone initialWorld).
  vm_compute; reflexivity.
Defined.

Lemma message_dispatch_witness :
  JSON_parse textPayload = Returned textData
  ∧ dispatched (after (handleDataChannelMessage textPayload initialWorld))
    = [{| event_name := "ai-message"; detail := Some (JStr "Hello") |}]
  ∧ console (after (handleDataChannelMessage textPayload initialWorld)) = [].
Proof.
  split; [vm_compute; reflexivity|].
  destruct (message_dispatch_by_type textPayload textData initialWorld)
    as (Htext & _); [vm_compute; reflexivity|].
  apply Htext. reflexivity.
Defined.

Lemma message_handler_witness :
  JSON_parse "not json" = Threw (JsError "Unexpected token")
  ∧ outcome (handleDataChannelMessage "not json" initialWorld) = Returned tt
  ∧ session (after (handleDataChannelMessage "not json" initialWorld)) = emptySession
  ∧ dispatched (after (handleDataChannelMessage "not json" initialWorld)) = []
  ∧ console (after (handleDataChannelMessage "not json" initialWorld))
    = [ConsoleError "Error handling data channel message:"
         (JsError "Unexpected token")].
Proof.
  split; [vm_compute; reflexivity|].
  destruct (message_handler_never_throws "not json" initialWorld)
    as (Hreturns & Hsession & _ & Hmalformed).
  split; [exact Hreturns|]. split; [exact Hsession|].
  apply Hmalformed. vm_compute; reflexivity.
Defined.

Example other_type_is_only_logged :
  dispatched (after (handleDataChannelMessage otherPayload initialWorld)) = []
  ∧ console (after (handleDataChannelMessage otherPayload initialWorld))
    = [LogReceived otherData].
Proof. by vm_compute. Qed.

Example null_payload_is_caught :
  outcome (handleDataChannelMessage "null" initialWorld) = Returned tt
  ∧ dispatched (after (handleDataChannelMessage "null" initialWorld)) = []
  ∧ console (after (handleDataChannelMessage "null" initialWorld))
    = [ConsoleError "Error handling data channel message:"
         (JsError "Cannot read properties of null")].
Proof. by vm_compute. Qed.

Example call_granted :
  outcome (useAudioChat.initializeCall grantedCall useAudioChat.initialApp)
  = Returned true
  ∧ useAudioChat.callState
      (after (useAudioChat.initializeCall grantedCall useAudioChat.initialApp))
    = {| useAudioChat.isConnected := true; useAudioChat.isListening := false;
         useAudioChat.error := None;
         useAudioChat.sessionId := Some "0b9d6f2e-5c1a-4f7e-9a3b-2d8e4c6f1a70" |}.
Proof. by vm_compute. Qed.

Example call_denied :
  outcome (useAudioChat.initializeCall deniedCall useAudioChat.initialApp)
  = Returned false
  ∧ useAudioChat.callState
      (after (useAudioChat.initializeCall deniedCall useAudioChat.initialApp))
    = {| useAudioChat.isConnected := false; useAudioChat.isListening := false;
         useAudioChat.error := Some "Microphone permission not granted";
         useAudioChat.sessionId := None |}.
Proof. by vm_compute. Qed.

Example call_without_microphone :
  outcome (useAudioChat.initializeCall captureFailsCall useAudioChat.initialApp)
  = Returned false
  ∧ useAudioChat.callState
      (after (useAudioChat.initializeCall captureFailsCall useAudioChat.initialApp))
    = {| useAudioChat.isConnected := false; useAudioChat.isListening := false;
         useAudioChat.error :=
           Some "Failed to access microphone: Permission denied";
         useAudioChat.sessionId := None |}.
Proof. by vm_compute. Qed.

End Sample.

(** * Further runs on the sample host *)

Section MoreSamples.
Import audioService.
#[local] Existing Instance sampleHost.

Lemma startStreaming_after_initialize_witness :
  outcome (initializeSession working initialWorld) = Returned tt
  ∧ outcome (startStreaming (after (initializeSession working initialWorld)))
    = Returned tt
  ∧ console (after (startStreaming (after (initializeSession working initialWorld))))
    = [LogText "WebRTC connection established successfully";
       LogText "Audio streaming active"].
Proof.
  split; [vm_compute; reflexivity|].
  destruct (startStreaming_after_initialize working initialWorld)
    as (Hreturns & Hconsole & _); [vm_compute; reflexivity|].
  split; [exact Hreturns|exact Hconsole].
Defined.

Lemma configuration_sent_on_open_witness :
  outcome (initializeSession working initialWorld) = Returned tt
  ∧ ∃ d, dataChannel (session (after (initializeSession working initialWorld))) = Some d
         ∧ sent (step (after (initializeSession working initialWorld)) (ChannelOpened d))
           = [(d, responseCreate)].
Proof.
  split; [vm_compute; reflexivity|].
  destruct (configuration_sent_on_open working initialWorld)
    as (d & Hd & Hsent & _); [vm_compute; reflexivity|].
  exists d. split; [exact Hd|exact Hsent].
Defined.

Lemma stale_close_event_witness :
  outcome (initializeSession working initialWorld) = Returned tt
  ∧ outcome (initializeSession working (after (initializeSession working initialWorld)))
    = Returned tt
  ∧ ∃ d,
      dataChannel (session (after (initializeSession working initialWorld))) = Some d
      ∧ isInitialized
          (session
             (step (after (initializeSession working
                             (after (initializeSession working initialWorld))))
                (ChannelClosed d))) = false.
Proof.
  split; [vm_compute; reflexivity|]. split; [vm_compute; reflexivity|].
  destruct (stale_close_event_uninitializes working working initialWorld)
    as (d & Hd & _ & _ & Hflag & _); [vm_compute; reflexivity..|].
  exists d. split; [exact Hd|exact Hflag].
Defined.



Lemma failed_exchange_releases_attempt_witness :
  falsy OPENAI_API_KEY = false
  ∧ getUserMedia rejected = Returned 1
  ∧ exchangeFailure rejected
    = Some (JsError "Failed to establish WebRTC connection: Unauthorized")
  ∧ outcome (initializeSession rejected initialWorld)
    = Threw (JsError "Failed to establish WebRTC connection: Unauthorized")
  ∧ tracksStopped (stream (establishedSession 2 1 3))
      (after (initializeSession rejected initialWorld))
  ∧ connectionClosed (peerConnection (establishedSession 2 1 3))
      (after (initializeSession rejected initialWorld))
  ∧ channelClosed (dataChannel (establishedSession 2 1 3))
      (after (initializeSession rejected initialWorld)).
Proof.
  split; [reflexivity|]. split; [reflexivity|]. split; [vm_compute; reflexivity|].
  destruct (failed_exchange_releases_attempt rejected initialWorld 1
              (JsError "Failed to establish WebRTC connection: Unauthorized"))
    as (Hthrows & Htracks & Hconnection & Hchannel & _);
    [reflexivity|reflexivity|vm_compute; reflexivity|].
  split; [exact Hthrows|]. split; [exact Htracks|].
  split; [exact Hconnection|exact Hchannel].
Defined.

Lemma initialize_attaches_tracks_witness :
  reachable (run [CallInitializeSession working; CallDisconnect] initialWorld)
  ∧ outcome (initializeSession working
               (run [CallInitializeSession working; CallDisconnect] initialWorld))
    = Returned tt
  ∧ ∃ pc ms,
      peerConnection
        (session (after (initializeSession working
                           (run [CallInitializeSession working; CallDisconnect]
                              initialWorld)))) = Some pc
      ∧ stream
          (session (after (initializeSession working
                             (run [CallInitializeSession working; CallDisconnect]
                                initialWorld)))) = Some ms
      ∧ default []
          (senders (after (initializeSession working
                             (run [CallInitializeSession working; CallDisconnect]
                                initialWorld))) !! pc)
        = stream_tracks ms.
Proof.
  assert (Hreach :
    reachable (run [CallInitializeSession working; CallDisconnect] initialWorld))
    by (exists [CallInitializeSession working; CallDisconnect]; reflexivity).
  split; [exact Hreach|]. split; [vm_compute; reflexivity|].
  apply (initialize_attaches_tracks working _ Hreach). vm_compute; reflexivity.
Defined.

Lemma remote_stream_witness :
  audioElement (session (after (initializeSession working initialWorld))) = Some 5
  ∧ srcObject (after (ontrack 40 (after (initializeSession working initialWorld)))) !! 5
    = Some 40
  ∧ srcObject
      (after (disconnect
                (after (ontrack 40 (after (initializeSession working initialWorld))))))
    !! 5 = None.
Proof.
  split; [vm_compute; reflexivity|].
  destruct (remote_stream_attached_then_detached
              (after (initializeSession working initialWorld)) 40 5)
    as (_ & Hattached & Hdetached); [vm_compute; reflexivity|].
  split; [exact Hattached|exact Hdetached].
Defined.

Lemma initializeSession_new_record_witness :
  reachable (run [CallInitializeSession working] initialWorld)
  ∧ session_ref (after (initializeSession working
                          (run [CallInitializeSession working] initialWorld)))
    ≠ session_ref (run [CallInitializeSession working] initialWorld).
Proof.
  assert (Hreach : reachable (run [CallInitializeSession working] initialWorld))
    by (exists [CallInitializeSession working]; reflexivity).
  split; [exact Hreach|]. exact (initializeSession_new_record working _ Hreach).
Defined.

Lemma initializeSession_without_key_witness :
  @falsy (@OPENAI_API_KEY keylessHost) = true
  ∧ @initializeSession keylessHost working
      (@run sampleHost [CallInitializeSession working] initialWorld)
    = (Threw (JsError "OpenAI API key is not configured"),
       after (cleanupSession
                (after (cleanupSession
                          (@run sampleHost [CallInitializeSession working]
                             initialWorld))))).
Proof.
  split; [reflexivity|].
  apply (@initializeSession_without_key keylessHost). reflexivity.
Defined.

Lemma initializeSession_throws_without_capture_witness :
  falsy OPENAI_API_KEY = false
  ∧ getUserMedia noMicrophone = Threw (JsError "Permission denied")
  ∧ outcome (initializeSession noMicrophone initialWorld)
    = Threw (JsError "Failed to access microphone: Permission denied").
Proof.
  split; [reflexivity|]. split; [reflexivity|].
  exact (initializeSession_throws_without_capture noMicrophone initialWorld
           (JsError "Permission denied") eq_refl eq_refl).
Defined.

Lemma initializeSession_throws_on_http_error_witness :
  falsy OPENAI_API_KEY = false
  ∧ fetch rejected = Returned {| ok := false; text := Returned "Unauthorized" |}
  ∧ outcome (initializeSession rejected initialWorld)
    = Threw (JsError "Failed to establish WebRTC connection: Unauthorized").
Proof.
  split; [reflexivity|]. split; [reflexivity|].
  exact (initializeSession_throws_on_http_error rejected initialWorld 1
           "v=0 offer" "Unauthorized" eq_refl eq_refl eq_refl eq_refl eq_refl).
Defined.

Lemma no_permission_no_initialization_witness :
  useAudioChat.permissionsQuery deniedCall ≠ Returned useAudioChat.granted
  ∧ useAudioChat.service
      (after (useAudioChat.startListening deniedCall useAudioChat.initialApp))
    = initialWorld.
Proof.
  assert (Hdenied :
    useAudioChat.permissionsQuery deniedCall ≠ Returned useAudioChat.granted)
    by discriminate.
  split; [exact Hdenied|].
  by destruct (no_permission_no_initialization deniedCall useAudioChat.initialApp
                 Hdenied).
Defined.

Lemma toggle_twice_witness :
  useAudioChat.isListening (useAudioChat.callState useAudioChat.initialApp) = false
  ∧ useAudioChat.callState
      (after (App.toggleMicrophone grantedCall
                (after (App.toggleMicrophone grantedCall useAudioChat.initialApp))))
    = {| useAudioChat.isConnected := true; useAudioChat.isListening := false;
         useAudioChat.error := None;
         useAudioChat.sessionId := Some "0b9d6f2e-5c1a-4f7e-9a3b-2d8e4c6f1a70" |}.
Proof.
  split; [reflexivity|].
  destruct (toggle_twice_stays_connected grantedCall grantedCall
              useAudioChat.initialApp "0b9d6f2e-5c1a-4f7e-9a3b-2d8e4c6f1a70")
    as (_ & Hstate & _); [reflexivity|reflexivity|reflexivity|vm_compute; reflexivity|].
  exact Hstate.
Defined.

End MoreSamples.
